(** * Comment moderation pipeline: a shallow embedding of [comment_moderator.py]

    The Python program loads a batch of comments from a JSON file, annotates
    every comment with a local profanity verdict and with the verdict of an
    external classification service, aggregates the annotated comments into a
    report, exports them as JSON and renders two charts.

    The embedding follows the source function by function.  Python values that
    [json.loads] can produce are the inductive type [json]; a Python [dict]
    with string keys is a [gmap string json].  Fallible code returns an
    [outcome]; code with effects (printing, writing files, calling the
    service) runs in the monad [M], which threads the trace of events of the
    run and stops at the first exception, as Python does. *)

From Stdlib Require Import ZArith QArith Ascii String OrdersEx.
From stdpp Require Import gmap strings list fin_maps sorting.

Set Warnings "-register-all".
Open Scope Z_scope.

(** ** Python values *)

(** A Python [float], as [json.loads] builds one from a number with a
    fraction or an exponent and from the literals [NaN], [Infinity] and
    [-Infinity].  A finite float is kept as the rational number it stands
    for (every double is one), with [-0.0] apart from [0.0], which it equals
    but is printed differently. *)
Inductive pyfloat : Type :=
| FNaN
| FInf (negative : bool)
| FNegZero
| FFinite (q : Q).

(** The values [json.loads] builds.  A string is the sequence of bytes of
    its UTF-8 encoding, so the order on strings by bytes is the order by
    code points that Python uses. *)
Inductive json : Type :=
| JNull
| JBool (b : bool)
| JInt (n : Z)
| JFloat (f : pyfloat)
| JStr (s : string)
| JArr (l : list json)
| JObj (m : gmap string json).

Abbreviation dict := (gmap string json).

(** The exceptions the run can meet; all are subclasses of Python's
    [Exception].  [APIError] stands for whatever the service client raises
    (connection, authentication, rate limit, time out, malformed reply). *)
Inductive exn : Type :=
| KeyError (key : string)
| TypeError
| ValueError
| JSONDecodeError
| OSError
| APIError.

(** The result of a fallible computation.  [Unmodelled] marks the few places
    where Python goes on in a way this model does not follow (see
    [dict_update], [py_lt] and [py_sorted_reverse]); no theorem says anything
    about a run that ends there. *)
Inductive outcome (A : Type) : Type :=
| Ok (a : A)
| Raise (e : exn)
| Unmodelled.
Arguments Ok {A} a.
Arguments Raise {A} e.
Arguments Unmodelled {A}.

#[global] Instance exn_eq_dec : EqDecision exn.
Proof. solve_decision. Defined.
#[global] Instance outcome_eq_dec `{EqDecision A} : EqDecision (outcome A).
Proof. solve_decision. Defined.

#[global] Instance outcome_ret : MRet outcome := λ A a, Ok a.
#[global] Instance outcome_bind : MBind outcome := λ A B f o,
  match o with
  | Ok a => f a
  | Raise e => Raise e
  | Unmodelled => Unmodelled
  end.
#[global] Instance outcome_fmap : FMap outcome := λ A B f o,
  match o with
  | Ok a => Ok (f a)
  | Raise e => Raise e
  | Unmodelled => Unmodelled
  end.

(** The numbers of Python as one ordered kind: integers, booleans and finite
    floats by their value, the two infinities, and NaN. *)
Inductive number : Type :=
| NNaN
| NNegInf
| NFin (q : Q)
| NPosInf.

Definition float_number (f : pyfloat) : number :=
  match f with
  | FNaN => NNaN
  | FInf true => NNegInf
  | FInf false => NPosInf
  | FNegZero => NFin 0
  | FFinite q => NFin q
  end.

(** [bool(v)]: Python truthiness, which [if c['is_offensive']] tests. *)
Definition py_truthy (v : json) : bool :=
  match v with
  | JNull => false
  | JBool b => b
  | JInt n => negb (n =? 0)
  | JFloat f => match float_number f with
                | NFin q => negb (Qeq_bool q 0)
                | _ => true
                end
  | JStr s => negb (String.eqb s "")
  | JArr l => match l with [] => false | _ => true end
  | JObj m => negb (bool_decide (m = ∅))
  end.

(** [v[key]] for a string key: only a [dict] can be indexed by a string. *)
Definition py_getitem (v : json) (key : string) : outcome json :=
  match v with
  | JObj m => match m !! key with
              | Some x => Ok x
              | None => Raise (KeyError key)
              end
  | _ => Raise TypeError
  end.

(** [c[key]] on a dict. *)
Definition dict_getitem (c : dict) (key : string) : outcome json :=
  match c !! key with
  | Some x => Ok x
  | None => Raise (KeyError key)
  end.

(** [c.get(key, default)]. *)
Definition dict_get (c : dict) (key : string) (default : json) : json :=
  match c !! key with
  | Some x => x
  | None => default
  end.

(** [c.update(other)].  A dict is merged into [c], its values winning.  A
    value that cannot be iterated raises [TypeError]; a string is iterated
    by characters, none of which is a key/value pair ([ValueError]), so only
    the empty string passes, and changes nothing, like the empty array.  A
    non-empty array is read by Python as a sequence of key/value pairs,
    whose keys need not be strings: that case is outside the model. *)
Definition dict_update (c : dict) (other : json) : outcome dict :=
  match other with
  | JObj m => Ok (m ∪ c)
  | JNull | JBool _ | JInt _ | JFloat _ => Raise TypeError
  | JStr s => if String.eqb s "" then Ok c else Raise ValueError
  | JArr [] => Ok c
  | JArr (_ :: _) => Unmodelled
  end.

(** The characters of a string: a character is a byte of the UTF-8 text
    together with the continuation bytes ([10xxxxxx]) that follow it. *)
Definition is_continuation (a : ascii) : bool :=
  match a with
  | Ascii _ _ _ _ _ _ b6 b7 => b7 && negb b6
  end.

Fixpoint characters (s : string) : list string :=
  match s with
  | EmptyString => []
  | String a s' =>
      match characters s' with
      | String b c :: rest =>
          if is_continuation b then String a (String b c) :: rest
          else String a "" :: String b c :: rest
      | rest => String a "" :: rest
      end
  end.

(** [len(v)]; the length of a string is the number of its characters. *)
Definition py_len (v : json) : outcome nat :=
  match v with
  | JArr l => Ok (length l)
  | JObj m => Ok (size m)
  | JStr s => Ok (length (characters s))
  | _ => Raise TypeError
  end.

(** [for x in v]: the elements an iteration yields.  Iterating a dict yields
    its keys and iterating a string its characters, all of them strings. *)
Definition py_iter (v : json) : outcome (list json) :=
  match v with
  | JArr l => Ok l
  | JObj m => Ok (JStr <$> (map_to_list m).*1)
  | JStr s => Ok (JStr <$> characters s)
  | _ => Raise TypeError
  end.

(** *** Ordering, as [sorted] sees it *)

Definition as_number (v : json) : option number :=
  match v with
  | JInt n => Some (NFin (inject_Z n))
  | JBool b => Some (NFin (if b then 1 else 0))
  | JFloat f => Some (float_number f)
  | _ => None
  end.

(** The float NaN. *)
Definition is_nan (v : json) : bool :=
  match v with
  | JFloat FNaN => true
  | _ => false
  end.

Definition Qltb (p q : Q) : bool :=
  match (p ?= q)%Q with
  | Lt => true
  | _ => false
  end.

(** [x < y] on numbers: by value, whatever the types, and false as soon as
    one of them is NaN. *)
Definition number_ltb (x y : number) : bool :=
  match x, y with
  | NNaN, _ | _, NNaN => false
  | NNegInf, NNegInf => false
  | NNegInf, _ => true
  | _, NNegInf => false
  | NPosInf, _ => false
  | _, NPosInf => true
  | NFin p, NFin q => Qltb p q
  end.

(** [x == y] on numbers used as dictionary keys.  There is one NaN object,
    the constant of the [json] module that [json.loads] returns for every
    [NaN] it reads, and a dictionary finds a key that is the very object it
    looks for, so that all NaN are one key although [NaN == NaN] is
    false. *)
Definition number_eqb (x y : number) : bool :=
  match x, y with
  | NNaN, NNaN => true
  | NNegInf, NNegInf => true
  | NPosInf, NPosInf => true
  | NFin p, NFin q => Qeq_bool p q
  | _, _ => false
  end.

Definition string_ltb (s t : string) : bool :=
  match String_as_OT.compare s t with
  | Lt => true
  | _ => false
  end.

(** [a < b].  Numbers (integers, floats, and booleans, which are numbers in
    Python) compare by value, a comparison with NaN being false; strings
    compare by code points; [None] and dicts support no ordering, and
    neither do values of different kinds.  Two arrays compare element by
    element in Python; that comparison is outside the model. *)
Definition py_lt (a b : json) : outcome bool :=
  match a, b with
  | JStr s, JStr t => Ok (string_ltb s t)
  | JArr _, JArr _ => Unmodelled
  | _, _ => match as_number a, as_number b with
            | Some x, Some y => Ok (number_ltb x y)
            | _, _ => Raise TypeError
            end
  end.

(** *** Hashing, as [Counter] sees it *)

(** Arrays and dicts are unhashable. *)
Definition hashable (v : json) : bool :=
  match v with
  | JArr _ | JObj _ => false
  | _ => true
  end.

(** Equality of two hashable values as dictionary keys: [True == 1 == 1.0]
    and [False == 0 == 0.0 == -0.0]. *)
Definition key_eqb (a b : json) : bool :=
  match a, b with
  | JNull, JNull => true
  | JStr s, JStr t => String.eqb s t
  | _, _ => match as_number a, as_number b with
            | Some x, Some y => number_eqb x y
            | _, _ => false
            end
  end.

(** A [Counter]: keys in order of first insertion, each with its count. *)
Fixpoint counter_incr (k : json) (cnt : list (json * nat)) : list (json * nat) :=
  match cnt with
  | [] => [(k, 1%nat)]
  | (k', n) :: rest =>
      if key_eqb k' k then (k', S n) :: rest
      else (k', n) :: counter_incr k rest
  end.

Definition counter_add (k : json) (cnt : list (json * nat)) : outcome (list (json * nat)) :=
  if hashable k then Ok (counter_incr k cnt) else Raise TypeError.

(** ** [sorted(xs, key=..., reverse=True)] *)

(** Python's sort is stable and uses only [<] on the keys; an exception
    raised by a comparison ends the sort.  For keys that [<] orders, every
    stable sort gives the same list; the model is a stable insertion sort:
    elements enter in input order, each new element going behind every
    element that is not greater than it (the place binary insertion
    finds). *)
Section Sorting.
Context {A K : Type} (key : A → K) (lt : K → K → outcome bool).

Fixpoint insert_sorted (x : A) (l : list A) : outcome (list A) :=
  match l with
  | [] => Ok [x]
  | y :: l' =>
      b ← lt (key x) (key y);
      if (b : bool) then Ok (x :: y :: l')
      else (y ::.) <$> insert_sorted x l'
  end.

Fixpoint sort_into (acc : list A) (l : list A) : outcome (list A) :=
  match l with
  | [] => Ok acc
  | x :: l' => acc' ← insert_sorted x acc; sort_into acc' l'
  end.

(** [sorted(l, key=key)] *)
Definition sorted_asc (l : list A) : outcome (list A) := sort_into [] l.

(** [sorted(l, key=key, reverse=True)]: CPython reverses the list, sorts
    it and reverses the result, which keeps the sort stable. *)
Definition sorted_reverse (l : list A) : outcome (list A) :=
  reverse <$> sorted_asc (reverse l).

(** No element is below its predecessor, as the comparisons say when they
    are made from left to right, up to the first element that is below. *)
Fixpoint one_run (l : list A) : outcome bool :=
  match l with
  | x :: l' =>
      match l' with
      | y :: _ => b ← lt (key y) (key x); if (b : bool) then Ok false else one_run l'
      | [] => Ok true
      end
  | [] => Ok true
  end.

(** [x] is not above [y]: the comparison answers that [y < x] is false. *)
Definition key_le (x y : A) : Prop := lt (key y) (key x) = Ok false.

(** [x] has the key [k], as far as the comparison can tell: neither is
    below the other. *)
Definition has_key (k : K) (x : A) : Prop :=
  lt k (key x) = Ok false ∧ lt (key x) k = Ok false.

#[global] Instance has_key_dec k x : Decision (has_key k x).
Proof. unfold has_key. apply _. Defined.
End Sorting.

(** [sorted(l, key=key, reverse=True)] on Python values.  [<] does not order
    a NaN: it is false both ways between NaN and any number, so with a NaN
    among the keys the outcome depends on the comparisons the algorithm
    happens to make.  CPython's [list.sort] starts on the reversed list by
    looking for the run it begins with, comparing each element with its
    predecessor; when none is below its predecessor the whole list is that
    run, nothing is moved, and the list comes back as it was.  That case is
    modelled; what the merge sort does with other lists that hold a NaN key
    is not. *)
Definition py_sorted_reverse {A} (key : A → json) (l : list A) : outcome (list A) :=
  if existsb (λ x, is_nan (key x)) l then
    run ← one_run key py_lt (reverse l);
    if (run : bool) then Ok l else Unmodelled
  else sorted_reverse key py_lt l.

(** ** Paths and strings *)

(** [s.replace(old, new)] for a non-empty [old]: every occurrence of [old],
    found from the left and not overlapping, is replaced.  [skip] counts the
    characters of an occurrence still to be dropped. *)
Fixpoint replace_from (old new : string) (skip : nat) (s : string) : string :=
  match s with
  | EmptyString => EmptyString
  | String a s' =>
      match skip with
      | S k => replace_from old new k s'
      | O =>
          if String.prefix old s
          then (new ++ replace_from old new (String.length old - 1) s')%string
          else String a (replace_from old new 0 s')
      end
  end.

Definition str_replace (old new s : string) : string := replace_from old new 0 s.

(** [s.rfind(a)] for a character [a]: the last index of [a], or -1. *)
Fixpoint rfind (a : ascii) (s : string) : Z :=
  match s with
  | EmptyString => -1
  | String b s' =>
      let i := rfind a s' in
      if 0 <=? i then i + 1
      else if Ascii.eqb a b then 0 else -1
  end.

(** [s[i:i+1] != '.'] *)
Definition not_dot_at (s : string) (i : Z) : bool :=
  match String.get (Z.to_nat i) s with
  | Some a => negb (Ascii.eqb a ".")
  | None => true
  end.

(** [os.path.splitext(p)] (posixpath): the extension starts at the last dot
    of the last path component, unless only dots precede it there. *)
Definition splitext (p : string) : string * string :=
  let sepIndex := rfind "/" p in
  let dotIndex := rfind "." p in
  if sepIndex <? dotIndex then
    if existsb (not_dot_at p) (seqZ (sepIndex + 1) (dotIndex - (sepIndex + 1)))
    then (String.substring 0 (Z.to_nat dotIndex) p,
          String.substring (Z.to_nat dotIndex) (String.length p - Z.to_nat dotIndex) p)
    else (p, EmptyString)
  else (p, EmptyString).

(** [p.rstrip('/')] *)
Fixpoint rstrip_slash (p : string) : string :=
  match p with
  | EmptyString => EmptyString
  | String a p' =>
      match rstrip_slash p' with
      | EmptyString => if Ascii.eqb a "/" then EmptyString else String a EmptyString
      | r => String a r
      end
  end.

(** [os.path.dirname(p)] (posixpath). *)
Definition dirname (p : string) : string :=
  let i := rfind "/" p + 1 in
  let head := String.substring 0 (Z.to_nat i) p in
  if String.eqb (rstrip_slash head) "" then head else rstrip_slash head.

(** [os.path.basename(p)] (posixpath): what follows the last slash. *)
Definition basename (p : string) : string :=
  let i := Z.to_nat (rfind "/" p + 1) in
  String.substring i (String.length p - i) p.

(** A path that can name a file: its last component is not empty (the
    path does not end in a slash) and is neither [.] nor [..]. *)
Definition names_file (p : string) : bool :=
  negb (String.eqb (basename p) "" || String.eqb (basename p) "."
        || String.eqb (basename p) "..").

(** ** The run: events, environment and the monad *)

(** A printed line is kept as the pieces of its f-string. *)
Inductive frag : Type :=
| FText (s : string)
| FVal (v : json)
| FExn (e : exn)
| FNum (n : nat).

(** A plotly figure: the data the chart is drawn from.  Titles, axis labels
    and the 800 x 600 canvas are the same in every run and are left out. *)
Inductive figure : Type :=
| Bar (x : list json) (y : list nat)
| Pie (names : list (list frag)) (values : list nat).

(** What a file holds once the program has written it: the text
    [json.dump(v, f, indent=2)] writes, the interactive page
    [fig.write_html] writes, or a static image (what [fig.write_image] would
    write). *)
Inductive file_content : Type :=
| JsonText (v : json)
| HtmlPage (fig : figure)
| StaticImage (fig : figure).

Inductive event : Type :=
| MadeDirs (path : string)
| Printed (line : list frag)
| Requested (comment_text : json)
| Written (path : string) (content : file_content).

(** What the run depends on and the program does not define: the files as
    they are when the run starts ([open(path, 'r')] followed by reading the
    whole file), the directories there are when the run starts,
    [json.loads], the word-list check of [better_profanity], and the
    classification service.  [chat_completion n text] is what the [n]-th
    call of the run (counting from 0) yields when it sends [text]: the
    content of the first choice of the response, or the exception raised on
    the way to it. *)
Record environment : Type := {
  open_read : string → outcome string;
  is_dir : string → bool;
  json_loads : string → outcome json;
  contains_profanity : json → bool;
  chat_completion : nat → json → outcome string
}.

Definition trace : Type := list event.

Definition M (A : Type) : Type := trace → outcome A * trace.

#[global] Instance M_ret : MRet M := λ A a t, (Ok a, t).
#[global] Instance M_bind : MBind M := λ A B f m t,
  match m t with
  | (Ok a, t') => f a t'
  | (Raise e, t') => (Raise e, t')
  | (Unmodelled, t') => (Unmodelled, t')
  end.

Definition lift {A} (o : outcome A) : M A := λ t, (o, t).
Definition raise {A} (e : exn) : M A := lift (Raise e).
Definition emit (e : event) : M unit := λ t, (Ok (), t ++ [e]).
Definition print (line : list frag) : M unit := emit (Printed line).

(** [try: body except Exception as e: handler e] *)
Definition try_except {A} (body : M A) (handler : exn → M A) : M A := λ t,
  match body t with
  | (Raise e, t') => handler e t'
  | r => r
  end.

(** The texts sent to the service so far, and the files written so far. *)
Definition requests (t : trace) : list json :=
  omap (λ e, match e with Requested text => Some text | _ => None end) t.

Definition written (t : trace) : list (string * file_content) :=
  omap (λ e, match e with Written p c => Some (p, c) | _ => None end) t.

Definition printed (t : trace) : list (list frag) :=
  omap (λ e, match e with Printed l => Some l | _ => None end) t.

(** The directories the run has made so far. *)
Definition made_dirs (t : trace) : list string :=
  omap (λ e, match e with MadeDirs d => Some d | _ => None end) t.

Definition nl : string := String (ascii_of_nat 10) EmptyString.

(** A computation that writes no file. *)
Definition writes_nothing {A} (m : M A) : Prop :=
  ∀ t, written (m t).2 = written t.

(** ** The program *)

Inductive plot_format : Type := html | png.

Definition format_name (f : plot_format) : string :=
  match f with
  | html => "html"
  | png => "png"
  end.

(** The command line of [main], as click hands it over. *)
Record options : Type := {
  input_file : string;
  output_file : string;
  filter_offensive : bool;
  create_plots : bool;
  plot_fmt : plot_format
}.

Definition default_options : options :=
  {| input_file := "data/comments.json";
     output_file := "output/analyzed_comments.json";
     filter_offensive := false;
     create_plots := true;
     plot_fmt := html |}.

(** The record [analyze_comment] returns when the call fails. *)
Definition error_analysis : dict :=
  <["is_offensive" := JBool false]>
  (<["offense_type" := JStr "error"]>
  (<["severity" := JInt 1]>
  (<["explanation" := JStr "Error in analysis"]> ∅))).

(** [x.get('severity', 1)] *)
Definition severity_key (c : dict) : json := dict_get c "severity" (JInt 1).

(** [c['is_offensive']] as a condition. *)
Definition is_offensive (c : dict) : outcome bool :=
  py_truthy <$> dict_getitem c "is_offensive".

(** [[c for c in comments if c['is_offensive']]] *)
Fixpoint offensive_only (comments : list dict) : outcome (list dict) :=
  match comments with
  | [] => Ok []
  | c :: rest =>
      b ← is_offensive c;
      rest' ← offensive_only rest;
      Ok (if (b : bool) then c :: rest' else rest')
  end.

(** [Counter(f(c) for c in comments if c['is_offensive'])], started from
    the counter [cnt]. *)
Fixpoint counter_of (f : dict → outcome json) (comments : list dict)
    (cnt : list (json * nat)) : outcome (list (json * nat)) :=
  match comments with
  | [] => Ok cnt
  | c :: rest =>
      b ← is_offensive c;
      if (b : bool) then
        k ← f c;
        cnt' ← counter_add k cnt;
        counter_of f rest cnt'
      else counter_of f rest cnt
  end.

Record report : Type := {
  total_comments : nat;
  offensive_comments : nat;
  offense_types : list (json * nat);
  most_offensive : list dict;
  all_offensive : list dict
}.

Definition generate_report (analyzed_comments : list dict) : outcome report :=
  let total := length analyzed_comments in
  offensive ← length <$> offensive_only analyzed_comments;
  types ← counter_of (λ c, dict_getitem c "offense_type") analyzed_comments [];
  (* Sort comments by severity (most severe first) *)
  candidates ← offensive_only analyzed_comments;
  ranked ← py_sorted_reverse severity_key candidates;
  let most := take 5 ranked in
  (* Get all offensive comments *)
  all ← offensive_only analyzed_comments;
  Ok {| total_comments := total;
        offensive_comments := offensive;
        offense_types := types;
        most_offensive := most;
        all_offensive := all |}.

(** The same environment with another profanity check. *)
Definition with_prefilter (f : json → bool) (env : environment) : environment :=
  {| open_read := open_read env;
     is_dir := is_dir env;
     json_loads := json_loads env;
     contains_profanity := f;
     chat_completion := chat_completion env |}.

(** The records without the verdict of the profanity check. *)
Definition without_prefilter (l : list dict) : list dict :=
  delete "contains_profanity" <$> l.

(** [comment['comment_text']], where there is one. *)
Definition comment_text_of (comment : json) : option json :=
  match comment with
  | JObj c => c !! "comment_text"
  | _ => None
  end.

(** The fields of a value that has fields. *)
Definition fields (v : json) : gset string :=
  match v with
  | JObj c => dom c
  | _ => ∅
  end.

(** The vocabulary of the statements about the report.  A record is
    offensive when [c['is_offensive']] is there and true as a condition;
    [a] is at least as severe as [b] when Python answers that
    [severity(a) < severity(b)] is false; a record has severity [k] when
    neither its severity nor [k] is below the other. *)
Definition offensive (c : dict) : Prop := is_offensive c = Ok true.

Definition at_least_as_severe (a b : dict) : Prop :=
  key_le severity_key py_lt b a.

Definition has_severity (k : json) (c : dict) : Prop :=
  has_key severity_key py_lt k c.

#[global] Instance has_severity_dec k c : Decision (has_severity k c).
Proof. unfold has_severity. apply _. Defined.

Section Program.
Context (env : environment).

Definition load_comments (file_path : string) : M json :=
  text ← lift (open_read env file_path);
  data ← lift (json_loads env text);
  lift (py_getitem data "comments").

(** [openai.ChatCompletion.create(...)] and the reading of
    [response.choices[0].message.content]. *)
Definition chat_completion_create (comment_text : json) : M string := λ t,
  (chat_completion env (length (requests t)) comment_text,
   t ++ [Requested comment_text]).

Definition analyze_comment (comment_text : json) : M json :=
  try_except
    (content ← chat_completion_create comment_text;
     result ← lift (json_loads env content);
     mret result)
    (λ e,
       print [FText "Error analyzing comment: "; FExn e];;
       mret (JObj error_analysis)).

(** [fig.write_html(output_file)].  [main] puts the charts into the
    directory of the export, after the export has been written there; the
    chart files are taken to be creatable. *)
Definition write_html (fig : figure) (output_file : string) : M unit :=
  emit (Written output_file (HtmlPage fig)).

Definition plot_offense_distribution (offense_types : list (json * nat))
    (output_file : string) : M unit :=
  let fig := Bar (offense_types.*1) (offense_types.*2) in
  write_html fig output_file.

Definition plot_severity_distribution (comments : list dict)
    (output_file : string) : M unit :=
  severity_counts ← lift (counter_of (λ c, Ok (severity_key c)) comments []);
  let fig := Pie ((λ k, [FText "Severity "; FVal k]) <$> severity_counts.*1)
                 (severity_counts.*2) in
  write_html fig output_file.

(** The directories there are: those the run has made, and those of the
    environment. *)
Definition directory (made : list string) (path : string) : bool :=
  bool_decide (path ∈ made) || is_dir env path.

(** [open(path, 'w')] creates the file when the path can name a file, is
    not a directory, and its directory is there (the current directory
    when the path has none).  Otherwise it raises [IsADirectoryError],
    [FileNotFoundError] or [NotADirectoryError], which are [OSError]s.
    Rights of access are taken to be there. *)
Definition can_create (made : list string) (path : string) : bool :=
  names_file path && negb (directory made path) &&
  (String.eqb (dirname path) "" || directory made (dirname path)).

Definition open_write (path : string) : M unit := λ t,
  if can_create (made_dirs t) path then (Ok (), t) else (Raise OSError, t).

Definition export_to_json (analyzed_comments : json) (output_file : string) : M unit :=
  open_write output_file;;
  emit (Written output_file (JsonText analyzed_comments)).

(** The body of the annotation loop of [main], for one comment. *)
Definition annotate (comment : json) : M dict :=
  match comment with
  | JObj c =>
      (* Pre-filter with profanity check *)
      text ← lift (dict_getitem c "comment_text");
      let c := <["contains_profanity" := JBool (contains_profanity env text)]> c in
      (* Analyze with OpenAI *)
      text ← lift (dict_getitem c "comment_text");
      analysis ← analyze_comment text;
      lift (dict_update c analysis)
  | _ => raise TypeError
  end.

Fixpoint annotate_all (comments : list json) : M (list dict) :=
  match comments with
  | [] => mret []
  | comment :: rest =>
      c ← annotate comment;
      rest' ← annotate_all rest;
      mret (c :: rest')
  end.

(** The two listings of the summary: [enumerate(comments, idx)]. *)
Fixpoint print_listing (idx : nat) (comments : list dict) : M unit :=
  match comments with
  | [] => mret ()
  | comment :: rest =>
      username ← lift (dict_getitem comment "username");
      print [FText nl; FNum idx; FText ". Username: "; FVal username];;
      text ← lift (dict_getitem comment "comment_text");
      print [FText "Comment: "; FVal text];;
      type ← lift (dict_getitem comment "offense_type");
      print [FText "Type: "; FVal type];;
      print [FText "Severity: "; FVal (dict_get comment "severity" (JInt 1))];;
      explanation ← lift (dict_getitem comment "explanation");
      print [FText "Explanation: "; FVal explanation];;
      print_listing (S idx) rest
  end.

Fixpoint print_breakdown (types : list (json * nat)) : M unit :=
  match types with
  | [] => mret ()
  | (offense_type, count) :: rest =>
      print [FText "- "; FVal offense_type; FText ": "; FNum count];;
      print_breakdown rest
  end.

Definition print_summary (r : report) (output_file : string) : M unit :=
  print [FText nl; FText "Analysis Summary:"];;
  print [FText "Total comments analyzed: "; FNum (total_comments r)];;
  print [FText "Offensive comments found: "; FNum (offensive_comments r)];;
  print [FText nl; FText "Offense type breakdown:"];;
  print_breakdown (offense_types r);;
  (match all_offensive r with
   | [] => mret ()
   | _ =>
       print [FText nl; FText "All Offensive Comments:"];;
       print_listing 1 (all_offensive r)
   end);;
  (match most_offensive r with
   | [] => mret ()
   | _ =>
       print [FText nl; FText "Top 5 Most Severe Offensive Comments:"];;
       print_listing 1 (most_offensive r)
   end);;
  print [FText nl; FText "Full analysis saved to "; FText output_file].

(** [os.makedirs(path, exist_ok=True)]: the empty path names no directory.
    Apart from that the directory is taken to be creatable. *)
Definition makedirs (path : string) : M unit :=
  if String.eqb path "" then raise OSError else emit (MadeDirs path).

(** The charts of [main], for the comments and the path as they are after
    the export. *)
Definition create_visualizations (o : options) (r : report)
    (comments : list dict) (output_file : string) : M unit :=
  match create_plots o, offense_types r with
  | true, _ :: _ =>
      (* Create offense type distribution plot *)
      let plot_file :=
        ((splitext output_file).1 ++ "_offense_distribution." ++ format_name (plot_fmt o))%string in
      plot_offense_distribution (offense_types r) plot_file;;
      print [FText nl; FText "Offense type distribution chart saved as '";
             FText plot_file; FText "'"];;
      (* Create severity distribution plot *)
      let severity_file :=
        ((splitext output_file).1 ++ "_severity_distribution." ++ format_name (plot_fmt o))%string in
      plot_severity_distribution comments severity_file;;
      print [FText "Severity distribution chart saved as '";
             FText severity_file; FText "'"]
  | _, _ => mret ()
  end.

(** [main].  [comments] is first the loaded value; the loop updates its
    elements in place, so that afterwards the variable holds the annotated
    records when the value is an array, and the value itself when the loop
    had nothing to go through (an empty string or an empty dict).  The
    pair [(exported, records)] is the variable [comments] from then on: the
    value [json.dump] receives and the records an iteration over it
    yields. *)
Definition main (o : options) : M unit :=
  (* Ensure output directory exists *)
  makedirs (dirname (output_file o));;
  (* Load comments *)
  print [FText "Loading comments..."];;
  comments ← load_comments (input_file o);
  n ← lift (py_len comments);
  print [FText "Loaded "; FNum n; FText " comments"];;
  (* Analyze comments *)
  print [FText nl; FText "Analyzing comments..."];;
  items ← lift (py_iter comments);
  annotated ← annotate_all items;
  let comments := match comments with
                  | JArr _ => JArr (JObj <$> annotated)
                  | v => v
                  end in
  (* Generate report *)
  r ← lift (generate_report annotated);
  (* Filter comments if requested *)
  '(exported, records, output_file) ←
    (if filter_offensive o then
       kept ← lift (offensive_only annotated);
       mret (JArr (JObj <$> kept), kept,
             str_replace ".json" "_offensive.json" (output_file o))
     else mret (comments, annotated, output_file o));
  (* Export results *)
  export_to_json exported output_file;;
  (* Create visualizations if requested *)
  create_visualizations o r records output_file;;
  (* Print summary *)
  print_summary r output_file.

(** A run starts with an empty trace. *)
Definition run (o : options) : outcome unit * trace := main o [].
End Program.

(** What [load_comments] returns; it does not depend on the trace. *)
Definition load_result (env : environment) (file_path : string) : outcome json :=
  (load_comments env file_path []).1.

(** The path of the export when [--filter-offensive] is set. *)
Definition offensive_path (output_file : string) : string :=
  str_replace ".json" "_offensive.json" output_file.

(** The paths of the two charts. *)
Definition chart_path (output_file kind : string) (f : plot_format) : string :=
  ((splitext output_file).1 ++ kind ++ format_name f)%string.

(** A record with the severity a lookup with default finds: the record
    itself when it has a severity, and the record with severity 1 when it
    has none. *)
Definition with_default_severity (c : dict) : dict :=
  match c !! "severity" with
  | Some _ => c
  | None => <["severity" := JInt 1]> c
  end.

Definition report_map (f : dict → dict) (r : report) : report :=
  {| total_comments := total_comments r;
     offensive_comments := offensive_comments r;
     offense_types := offense_types r;
     most_offensive := f <$> most_offensive r;
     all_offensive := f <$> all_offensive r |}.

(** A record as the data model has it, except that the severity may be
    missing: the fields of the input and the classification fields are
    there, [is_offensive] a boolean, [offense_type] a string, and the
    severity, when there is one, an integer. *)
Definition well_formed_but_severity (c : dict) : Prop :=
  is_Some (c !! "username") ∧
  is_Some (c !! "comment_text") ∧
  (∃ b, c !! "is_offensive" = Some (JBool b)) ∧
  (∃ s, c !! "offense_type" = Some (JStr s)) ∧
  (∀ v, c !! "severity" = Some v → ∃ n, v = JInt n) ∧
  is_Some (c !! "explanation").

(** ** Sample inputs *)

(** The double quote, and a quoted word of a JSON text. *)
Definition dquote : string := String (ascii_of_nat 34) EmptyString.
Definition quoted (s : string) : string := (dquote ++ s ++ dquote)%string.

Definition hello_comment : dict :=
  {[ "username" := JStr "a"; "comment_text" := JStr "hello" ]}.

Definition rude_comment : dict :=
  {[ "username" := JStr "b"; "comment_text" := JStr "you damn fool" ]}.

(** [{"comments": [{"username": "a", "comment_text": "hello"},
                   {"username": "b", "comment_text": "you damn fool"}]}] *)
Definition two_comments_text : string :=
  ("{" ++ quoted "comments" ++ ": [{" ++
   quoted "username" ++ ": " ++ quoted "a" ++ ", " ++
   quoted "comment_text" ++ ": " ++ quoted "hello" ++ "}, {" ++
   quoted "username" ++ ": " ++ quoted "b" ++ ", " ++
   quoted "comment_text" ++ ": " ++ quoted "you damn fool" ++ "}]}")%string.

Definition two_comments : json :=
  JObj {[ "comments" := JArr [JObj hello_comment; JObj rude_comment] ]}.

(** [{"comments": 5}] *)
Definition comments_5_text : string :=
  ("{" ++ quoted "comments" ++ ": 5}")%string.

(** [{"is_offensive": true, "offense_type": "toxicity", "severity": 4,
      "explanation": "insult"}] *)
Definition toxic_text : string :=
  ("{" ++ quoted "is_offensive" ++ ": true, " ++
   quoted "offense_type" ++ ": " ++ quoted "toxicity" ++ ", " ++
   quoted "severity" ++ ": 4, " ++
   quoted "explanation" ++ ": " ++ quoted "insult" ++ "}")%string.

Definition toxic : dict :=
  {[ "is_offensive" := JBool true; "offense_type" := JStr "toxicity";
     "severity" := JInt 4; "explanation" := JStr "insult" ]}.

(** [{"is_offensive": "yes", "offense_type": "toxicity", "severity": 4,
      "explanation": "insult"}] *)
Definition yes_text : string :=
  ("{" ++ quoted "is_offensive" ++ ": " ++ quoted "yes" ++ ", " ++
   quoted "offense_type" ++ ": " ++ quoted "toxicity" ++ ", " ++
   quoted "severity" ++ ": 4, " ++
   quoted "explanation" ++ ": " ++ quoted "insult" ++ "}")%string.

Definition yes_verdict : dict :=
  {[ "is_offensive" := JStr "yes"; "offense_type" := JStr "toxicity";
     "severity" := JInt 4; "explanation" := JStr "insult" ]}.

(** The JSON texts of the samples with the values [json.loads] gives for
    them. *)
Definition sample_documents : list (string * json) :=
  [ ("{}"%string, JObj ∅);
    (two_comments_text, two_comments);
    (comments_5_text, JObj {[ "comments" := JInt 5 ]});
    (toxic_text, JObj toxic);
    (yes_text, JObj yes_verdict) ].

Fixpoint lookup_document (docs : list (string * json)) (text : string) : outcome json :=
  match docs with
  | [] => Raise JSONDecodeError
  | (doc, v) :: rest =>
      if String.eqb doc text then Ok v else lookup_document rest text
  end.

(** A [json.loads] for the samples: it knows the texts above, and rejects
    any other text; the samples use it on these texts and on texts that are
    not JSON. *)
Definition sample_loads (text : string) : outcome json :=
  lookup_document sample_documents text.

(** A profanity check with a word list of one word, for texts of the
    samples; [better_profanity] flags every text that is not a string. *)
Definition sample_profanity (text : json) : bool :=
  match text with
  | JStr s => String.eqb s "you damn fool"
  | _ => true
  end.

(** An environment where [data/comments.json] is the only file and holds
    [file_text], where there is no directory but the current one, and
    where the service answers [reply]. *)
Definition sample_env (file_text : string)
    (reply : nat → json → outcome string) : environment :=
  {| open_read := λ path,
       if String.eqb path "data/comments.json" then Ok file_text
       else Raise OSError;
     is_dir := λ _, false;
     json_loads := sample_loads;
     contains_profanity := sample_profanity;
     chat_completion := reply |}.

(** The service is down; it answers [{}]; it finds the second comment
    toxic; it answers with ["yes"] for [is_offensive]. *)
Definition service_down : nat → json → outcome string := λ _ _, Raise APIError.
Definition service_empty : nat → json → outcome string := λ _ _, Ok "{}"%string.
Definition service_toxic : nat → json → outcome string := λ n _,
  match n with
  | O => Ok "I am sorry, I cannot rate this."%string
  | _ => Ok toxic_text
  end.
Definition service_yes : nat → json → outcome string := λ _ _, Ok yes_text.

(** The command lines of the samples: the defaults with [--plot-format png],
    with [--filter-offensive], and with [--filter-offensive] and an output
    file that is no [.json] file. *)
Definition png_options : options :=
  {| input_file := "data/comments.json";
     output_file := "output/analyzed_comments.json";
     filter_offensive := false;
     create_plots := true;
     plot_fmt := png |}.

Definition filtered_options : options :=
  {| input_file := "data/comments.json";
     output_file := "output/analyzed_comments.json";
     filter_offensive := true;
     create_plots := true;
     plot_fmt := html |}.

Definition filtered_txt_options : options :=
  {| input_file := "data/comments.json";
     output_file := "out/results.txt";
     filter_offensive := true;
     create_plots := false;
     plot_fmt := html |}.

(** The two sample comments once annotated: when the service is down, when
    it answers [{}], when it cannot rate the first and finds the second
    toxic, and when it answers ["yes"]. *)
Definition flagged (b : bool) (c : dict) : dict :=
  <["contains_profanity" := JBool b]> c.

Definition hello_failed : dict := error_analysis ∪ flagged false hello_comment.
Definition rude_failed : dict := error_analysis ∪ flagged true rude_comment.
Definition rude_toxic : dict := toxic ∪ flagged true rude_comment.
Definition hello_yes : dict := yes_verdict ∪ flagged false hello_comment.
Definition rude_yes : dict := yes_verdict ∪ flagged true rude_comment.

(** Annotated records for the report: an offensive record of a user, with
    an offense type and, when given, a severity; and a record found clean. *)
Definition verdict (user kind : string) (sev : option Z) : dict :=
  let c : dict :=
    {[ "username" := JStr user; "comment_text" := JStr "some words";
       "contains_profanity" := JBool false; "is_offensive" := JBool true;
       "offense_type" := JStr kind; "explanation" := JStr "some reason" ]} in
  match sev with
  | Some n => <["severity" := JInt n]> c
  | None => c
  end.

Definition clean (user : string) : dict :=
  {[ "username" := JStr user; "comment_text" := JStr "some words";
     "contains_profanity" := JBool false; "is_offensive" := JBool false;
     "offense_type" := JStr "none"; "severity" := JInt 1;
     "explanation" := JStr "fine" ]}.

(** Eight annotated records: seven offensive ones, three of them of
    severity 4 and one without a severity, and a clean one. *)
Definition sample_records : list dict :=
  [ verdict "u1" "toxicity" (Some 4); clean "u2";
    verdict "u3" "harassment" (Some 4); verdict "u4" "hate_speech" (Some 5);
    verdict "u5" "profanity" None; verdict "u6" "toxicity" (Some 2);
    verdict "u7" "harassment" (Some 4); verdict "u8" "profanity" (Some 3) ].

(** Three offensive records whose severities are 1, NaN and 2. *)
Definition nan_verdict (user : string) : dict :=
  <["severity" := JFloat FNaN]> (verdict user "toxicity" None).

Definition nan_records : list dict :=
  [ verdict "u1" "toxicity" (Some 1); nan_verdict "u2";
    verdict "u3" "toxicity" (Some 2) ].

(** Two offensive records, the first without a severity, the second with
    the severity ["high"]. *)
Definition worded_verdict (user : string) : dict :=
  <["severity" := JStr "high"]> (verdict user "toxicity" None).

Definition worded_records : list dict :=
  [ verdict "u1" "toxicity" None; worded_verdict "u2" ].

(** The two sample comments as the loop leaves them when the service finds
    the second toxic, with the trace of the loop. *)
Definition sample_annotated : list dict * trace :=
  match annotate_all (sample_env two_comments_text service_toxic)
          [JObj hello_comment; JObj rude_comment] [] with
  | (Ok l, t') => (l, t')
  | _ => ([], [])
  end.

(** ** Further vocabulary *)

(** [cnt[k]] on a [Counter]: the count of a key, 0 for a key that is not
    there. *)
Fixpoint counter_get (k : json) (cnt : list (json * nat)) : nat :=
  match cnt with
  | [] => 0%nat
  | (k', n) :: rest => if key_eqb k' k then n else counter_get k rest
  end.

(** The records a [Counter(f(c) for c in comments if c['is_offensive'])]
    counts under the key [k]: the offensive ones on which [f] gives a key
    equal to [k]. *)
Definition counted_as (f : dict → outcome json) (k : json) (c : dict) : Prop :=
  offensive c ∧
  match f c with
  | Ok v => key_eqb v k = true
  | _ => False
  end.

#[global] Instance counted_as_dec f k c : Decision (counted_as f k c).
Proof. unfold counted_as. destruct (f c); apply _. Defined.

(** The keys of a counter are different keys. *)
Definition different_keys (a b : json * nat) : Prop := key_eqb a.1 b.1 = false.

(** The events of [main] before the loop, for an output file with a
    directory and [n] loaded comments. *)
Definition prologue (o : options) (n : nat) : trace :=
  [ MadeDirs (dirname (output_file o));
    Printed [FText "Loading comments..."];
    Printed [FText "Loaded "; FNum n; FText " comments"];
    Printed [FText nl; FText "Analyzing comments..."] ].

(** The steps of [main] after the report: export, charts and summary. *)
Definition finish (env : environment) (o : options) (r : report)
    (exported : json) (records : list dict) (out : string) : M unit :=
  export_to_json env exported out;;
  create_visualizations o r records out;;
  print_summary r out.

(** The variable [comments] of [main] after the loop. *)
Definition comments_after (comments : json) (annotated : list dict) : json :=
  match comments with
  | JArr _ => JArr (JObj <$> annotated)
  | v => v
  end.

(** The records of an exported value. *)
Definition records_of (v : json) : list json :=
  match v with
  | JArr l => l
  | _ => []
  end.

(** A comment as the loop leaves it when its classification fails. *)
Definition mark_failed (env : environment) (comment : json) : json :=
  match comment with
  | JObj c =>
      match c !! "comment_text" with
      | Some text =>
          JObj (error_analysis
                ∪ <["contains_profanity" := JBool (contains_profanity env text)]> c)
      | None => comment
      end
  | _ => comment
  end.

(** A comment the loop can annotate: an object with a [comment_text]. *)
Definition annotatable (comment : json) : Prop :=
  is_Some (comment_text_of comment).

(** The fields [comment.update(v)] takes from [v], when it takes any. *)
Definition reply_fields (v : json) : dict :=
  match v with
  | JObj m => m
  | _ => ∅
  end.

(** A value [comment.update] does not accept: anything but a mapping, and an
    iterable that is not empty (an empty string or list is accepted, and
    changes nothing). *)
Definition not_a_mapping (v : json) : Prop :=
  match v with
  | JNull | JBool _ | JInt _ | JFloat _ => True
  | JStr s => s ≠ ""%string
  | JArr _ | JObj _ => False
  end.

(** Every call of the service fails: it raises, or its content is not
    parseable. *)
Definition classification_fails (env : environment) : Prop :=
  ∀ n text,
    (∃ e, chat_completion env n text = Raise e) ∨
    (∃ content e, chat_completion env n text = Ok content ∧
                  json_loads env content = Raise e).

(** The fields a listing of the summary reads with [comment[...]]. *)
Definition listed_fields : list string :=
  ["username"; "comment_text"; "offense_type"; "explanation"]%string.

(** A path without the character [a]. *)
Definition free_of (a : ascii) (p : string) : Prop :=
  Forall (λ b, b ≠ a) (list_ascii_of_string p).

(** The events of [main] before the comments are loaded. *)
Definition loading (o : options) : trace :=
  [ MadeDirs (dirname (output_file o));
    Printed [FText "Loading comments..."] ].

(** A computation that sends nothing to the service. *)
Definition asks_nothing {A} (m : M A) : Prop :=
  ∀ t, requests (m t).2 = requests t.

(** A computation that makes no directory. *)
Definition makes_no_dir {A} (m : M A) : Prop :=
  ∀ t, made_dirs (m t).2 = made_dirs t.

(** A computation that only adds events behind the trace, none of them a
    request. *)
Definition appends {A} (m : M A) : Prop :=
  ∀ t, ∃ evs, (m t).2 = t ++ evs ∧ requests evs = [].

(** An exported value that is an offensive record. *)
Definition offensive_value (v : json) : Prop :=
  match v with
  | JObj c => offensive c
  | _ => False
  end.

#[global] Instance offensive_value_dec v : Decision (offensive_value v).
Proof. destruct v; apply _. Defined.

(** [old in s], for a non-empty [old]. *)
Fixpoint occurs_in (old s : string) : bool :=
  match s with
  | EmptyString => false
  | String _ s' => String.prefix old s || occurs_in old s'
  end.

(** The report of no records. *)
Definition empty_report : report :=
  {| total_comments := 0; offensive_comments := 0; offense_types := [];
     most_offensive := []; all_offensive := [] |}.

(** The report of the sample records, and the severity chart made from
    them. *)
Definition sample_report : report :=
  match generate_report sample_records with
  | Ok r => r
  | _ => empty_report
  end.

Definition sample_chart : outcome unit * trace :=
  plot_severity_distribution sample_records "charts/severity.html" [].

(** More JSON texts, with the values [json.loads] gives for them:
    [{"comments": [{"username": "a"}]}],
    [{"is_offensive": false, "comment_text": "[removed]"}],
    [{"comments": [{"comment_text": "you damn fool"}]}] and [42]. *)
Definition nameless_text : string :=
  ("{" ++ quoted "comments" ++ ": [{" ++
   quoted "username" ++ ": " ++ quoted "a" ++ "}]}")%string.

Definition rewriting_text : string :=
  ("{" ++ quoted "is_offensive" ++ ": false, " ++
   quoted "comment_text" ++ ": " ++ quoted "[removed]" ++ "}")%string.

Definition anonymous_text : string :=
  ("{" ++ quoted "comments" ++ ": [{" ++
   quoted "comment_text" ++ ": " ++ quoted "you damn fool" ++ "}]}")%string.

Definition anonymous_comment : dict :=
  {[ "comment_text" := JStr "you damn fool" ]}.

Definition rewriting : dict :=
  {[ "is_offensive" := JBool false; "comment_text" := JStr "[removed]" ]}.

Definition more_documents : list (string * json) :=
  [ (nameless_text, JObj {[ "comments" := JArr [JObj {[ "username" := JStr "a" ]}] ]});
    (rewriting_text, JObj rewriting);
    (anonymous_text, JObj {[ "comments" := JArr [JObj anonymous_comment] ]});
    ("42"%string, JInt 42) ].

(** The sample environment with these texts known to [json.loads] too. *)
Definition sample_env' (file_text : string)
    (reply : nat → json → outcome string) : environment :=
  {| open_read := open_read (sample_env file_text reply);
     is_dir := is_dir (sample_env file_text reply);
     json_loads := lookup_document (more_documents ++ sample_documents);
     contains_profanity := sample_profanity;
     chat_completion := reply |}.

Definition service_rewriting : nat → json → outcome string :=
  λ _ _, Ok rewriting_text.

Definition service_always_toxic : nat → json → outcome string :=
  λ _ _, Ok toxic_text.

Definition service_number : nat → json → outcome string :=
  λ _ _, Ok "42"%string.

(** The export of the sample run in which the second comment is found
    toxic: its path, its value and the charts written after it. *)
Definition sample_export : string * json * list (string * file_content) :=
  match written (run (sample_env two_comments_text service_toxic)
                     default_options).2 with
  | (path, JsonText v) :: charts => (path, v, charts)
  | _ => (""%string, JNull, [])
  end.

(** The first chart of that run. *)
Definition sample_offense_chart : string * file_content :=
  match sample_export.2 with
  | chart :: _ => chart
  | [] => (""%string, JsonText JNull)
  end.

(** What the loop makes of the first sample comment when the service
    rewrites it. *)
Definition sample_rewritten : dict * trace :=
  match annotate (sample_env' two_comments_text service_rewriting)
                 (JObj hello_comment) [] with
  | (Ok c', t') => (c', t')
  | _ => (∅, [])
  end.

(** An environment in which every file holds a text that [json.loads]
    reads as [v]. *)
Definition reading_back (v : json) : environment :=
  {| open_read := λ _, Ok "export"%string;
     is_dir := λ _, false;
     json_loads := λ _, Ok v;
     contains_profanity := sample_profanity;
     chat_completion := service_down |}.

(** Command lines: an output file without a directory, and an input file
    that is not there. *)
Definition bare_output_options : options :=
  {| input_file := "data/comments.json";
     output_file := "results.json";
     filter_offensive := false;
     create_plots := true;
     plot_fmt := html |}.

Definition nested_output_options : options :=
  {| input_file := "data/comments.json";
     output_file := "runs.json/analyzed.json";
     filter_offensive := true;
     create_plots := true;
     plot_fmt := html |}.

Definition missing_input_options : options :=
  {| input_file := "data/missing.json";
     output_file := "output/analyzed_comments.json";
     filter_offensive := false;
     create_plots := true;
     plot_fmt := html |}.

(** * Properties *)

(** ** The outcome monad *)

Lemma outcome_bind_Ok {A B} (o : outcome A) (f : A → outcome B) (b : B) :
  o ≫= f = Ok b ↔ ∃ a, o = Ok a ∧ f a = Ok b.
Proof.
  destruct o as [a|e|]; simpl; split; try (intros [a' [? ?]]); try discriminate; eauto.
  by simplify_eq.
Qed.

Lemma outcome_fmap_Ok {A B} (o : outcome A) (f : A → B) (b : B) :
  f <$> o = Ok b ↔ ∃ a, o = Ok a ∧ b = f a.
Proof.
  destruct o as [a|e|]; simpl; split; try (intros [a' [? ?]]); try discriminate; eauto.
  - intros [= <-]; eauto.
  - by simplify_eq.
Qed.

(** Takes a hypothesis [o ≫= f = Ok b] (or with [<$>]) apart. *)
Ltac ok_inv H :=
  repeat first
    [ apply outcome_bind_Ok in H as (? & ? & H)
    | apply outcome_fmap_Ok in H as (? & H & ->) ].

(** Proves [lhs = rhs] by evaluating [lhs]. *)
Ltac by_evaluation :=
  lazymatch goal with
  | |- @eq ?T _ ?rhs => vm_cast_no_check (@eq_refl T rhs)
  end.

(** ** Lists *)

Lemma filter_none {A} (P : A → Prop) `{!∀ x, Decision (P x)} (l : list A) :
  (∀ x, x ∈ l → ¬ P x) → filter P l = [].
Proof.
  induction l as [|x l IH]; intros Hn; [done|].
  rewrite filter_cons_False by (apply Hn; by left).
  apply IH. intros y Hy. apply Hn. by right.
Qed.

Lemma StronglySorted_lookup {A} (R : relation A) (l : list A) i j a b :
  StronglySorted R l → (i < j)%nat →
  l !! i = Some a → l !! j = Some b → R a b.
Proof.
  intros Hs. revert i j. induction Hs as [|x l Hs IH Hx]; intros i j Hij Ha Hb.
  - by rewrite lookup_nil in Ha.
  - destruct j as [|j]; [lia|]. simpl in Hb. destruct i as [|i]; simpl in Ha.
    + simplify_eq. rewrite Forall_forall in Hx.
      apply Hx. by eapply list_elem_of_lookup_2.
    + apply (IH i j); [lia|done..].
Qed.

(** ** The sort *)

Section SortingTotal.
Context {A K : Type} (key : A → K) (lt : K → K → outcome bool).

Lemma insert_sorted_perm x l l' :
  insert_sorted key lt x l = Ok l' → l' ≡ₚ x :: l.
Proof.
  revert l'. induction l as [|y l IH]; intros l' H; simpl in H.
  - by simplify_eq.
  - apply outcome_bind_Ok in H as ([] & Hb & H).
    + by simplify_eq.
    + apply outcome_fmap_Ok in H as (r & Hr & ->).
      rewrite (IH _ Hr). apply Permutation_swap.
Qed.

(** The sort fails only where a comparison does. *)
Lemma insert_sorted_total x l :
  (∀ y, y ∈ l → ∃ b, lt (key x) (key y) = Ok b) →
  ∃ l', insert_sorted key lt x l = Ok l'.
Proof.
  induction l as [|y l IH]; intros H; simpl; [eauto|].
  destruct (H y) as [b ->]; [by left|]. simpl.
  destruct b; [eauto|].
  destruct IH as [l' ->]; [|simpl; eauto].
  intros z Hz. apply H. by right.
Qed.

Lemma sort_into_total acc l :
  (∀ x y, x ∈ acc ++ l → y ∈ acc ++ l → ∃ b, lt (key x) (key y) = Ok b) →
  ∃ r, sort_into key lt acc l = Ok r.
Proof.
  revert acc. induction l as [|x l IH]; intros acc H; simpl; [eauto|].
  destruct (insert_sorted_total x acc) as [acc' Hacc].
  { intros y Hy. apply H; set_solver. }
  rewrite Hacc. simpl. apply IH.
  pose proof (insert_sorted_perm _ _ _ Hacc) as Hp.
  assert (∀ y, y ∈ acc' ++ l → y ∈ acc ++ x :: l) as Hin.
  { intros y. rewrite !elem_of_app, Hp, !elem_of_cons. tauto. }
  intros y z Hy Hz. apply H; by apply Hin.
Qed.

Lemma sorted_reverse_total l :
  (∀ x y, x ∈ l → y ∈ l → ∃ b, lt (key x) (key y) = Ok b) →
  ∃ r, sorted_reverse key lt l = Ok r.
Proof.
  intros H. unfold sorted_reverse, sorted_asc.
  destruct (sort_into_total [] (reverse l)) as [r ->]; [|simpl; eauto].
  simpl. intros x y Hx Hy. apply H; by apply elem_of_reverse.
Qed.
End SortingTotal.

Section SortingPerm.
Context {A K : Type} (key : A → K) (lt : K → K → outcome bool).

(** Whatever the comparison, what the sort returns is a rearrangement of
    the list. *)
Lemma sort_into_perm acc l r :
  sort_into key lt acc l = Ok r → r ≡ₚ acc ++ l.
Proof.
  revert acc. induction l as [|x l IH]; intros acc H; simpl in H.
  - simplify_eq. by rewrite app_nil_r.
  - apply outcome_bind_Ok in H as (acc' & Hins & H).
    rewrite (IH _ H), (insert_sorted_perm _ _ _ _ _ Hins). simpl.
    apply Permutation_middle.
Qed.

Lemma sorted_reverse_perm l r :
  sorted_reverse key lt l = Ok r → r ≡ₚ l.
Proof.
  unfold sorted_reverse, sorted_asc. intros H.
  apply outcome_fmap_Ok in H as (s & Hs & ->).
  apply sort_into_perm in Hs. simpl in Hs.
  by rewrite reverse_Permutation, Hs, reverse_Permutation.
Qed.
End SortingPerm.

Section SortingFacts.
Context {A K : Type} (key : A → K) (lt : K → K → outcome bool).

(** The comparison, where it answers, is that of a total preorder on the
    keys it orders ([ordered]: for Python's [<], all but NaN). *)
Context (ordered : K → Prop).
Hypothesis lt_asym : ∀ a b, lt a b = Ok true → lt b a = Ok false.
Hypothesis le_trans : ∀ a b c,
  ordered a → ordered b → ordered c →
  lt b a = Ok false → lt c b = Ok false → lt c a = Ok false.
Hypothesis lt_le_trans : ∀ a b c,
  ordered a → ordered b → ordered c →
  lt a b = Ok true → lt c b = Ok false → lt a c = Ok true.

#[local] Abbreviation key_le := (key_le key lt).
#[local] Abbreviation has_key := (has_key key lt).
#[local] Abbreviation all_ordered := (Forall (λ x, ordered (key x))).

Lemma insert_sorted_sorted x l l' :
  ordered (key x) → all_ordered l →
  StronglySorted key_le l →
  insert_sorted key lt x l = Ok l' →
  StronglySorted key_le l'.
Proof.
  intros Hx. revert l'. induction l as [|y l IH]; intros l' Hl Hs H; simpl in H.
  - simplify_eq. repeat constructor.
  - apply Forall_cons in Hl as [Hoy Hl].
    apply StronglySorted_cons in Hs as [Hy Hs].
    apply outcome_bind_Ok in H as ([] & Hb & H).
    + simplify_eq. apply StronglySorted_cons. split.
      * constructor; [by apply lt_asym|].
        rewrite Forall_forall in Hy, Hl. apply Forall_forall. intros z Hz.
        unfold key_le in *.
        apply (le_trans (key x) (key y) (key z));
          [done|done|by apply Hl|by apply lt_asym|by apply Hy].
      * by apply StronglySorted_cons.
    + apply outcome_fmap_Ok in H as (r & Hr & ->).
      apply StronglySorted_cons. split; [|by eapply IH].
      rewrite (insert_sorted_perm _ _ _ _ _ Hr). by constructor.
Qed.

Lemma insert_sorted_stable k x l l' :
  ordered k → ordered (key x) → all_ordered l →
  StronglySorted key_le l →
  insert_sorted key lt x l = Ok l' →
  filter (has_key k) l' = filter (has_key k) (l ++ [x]).
Proof.
  intros Hk Hox. revert l'.
  induction l as [|y l IH]; intros l' Hl Hs H; simpl in H.
  - by simplify_eq.
  - apply Forall_cons in Hl as [Hoy Hl].
    apply StronglySorted_cons in Hs as [Hy Hs].
    apply outcome_bind_Ok in H as ([] & Hb & H).
    + simplify_eq. rewrite filter_app.
      destruct (decide (has_key k x)) as [[Hx1 Hx2]|Hx].
      * assert (Hnone : filter (has_key k) (y :: l) = []).
        { apply filter_none. intros z Hz [Hz1 Hz2].
          assert (ordered (key z)) as Hoz.
          { apply elem_of_cons in Hz as [->|Hz]; [done|].
            rewrite Forall_forall in Hl. by apply Hl. }
          assert (lt (key x) (key z) = Ok true) as Hlt.
          { apply elem_of_cons in Hz as [->|Hz]; [done|].
            rewrite Forall_forall in Hy.
            eapply (lt_le_trans _ (key y)); [done..|exact Hb|].
            by apply Hy. }
          pose proof (le_trans _ _ _ Hoz Hk Hox Hz1 Hx2). congruence. }
        rewrite (filter_cons_True _ x) by done. rewrite Hnone. simpl.
        by rewrite filter_cons_True.
      * rewrite !(filter_cons_False _ x) by done.
        by rewrite filter_nil, app_nil_r.
    + apply outcome_fmap_Ok in H as (r & Hr & ->).
      rewrite <- app_comm_cons, !filter_cons, (IH _ Hl Hs Hr).
      by destruct (decide (has_key k y)).
Qed.

Lemma sort_into_spec acc l r :
  all_ordered acc → all_ordered l →
  StronglySorted key_le acc →
  sort_into key lt acc l = Ok r →
  StronglySorted key_le r ∧ r ≡ₚ acc ++ l ∧
  ∀ k, ordered k → filter (has_key k) r = filter (has_key k) (acc ++ l).
Proof.
  revert acc. induction l as [|x l IH]; intros acc Hacc Hl Hs H; simpl in H.
  - simplify_eq. by rewrite app_nil_r.
  - apply Forall_cons in Hl as [Hx Hl].
    apply outcome_bind_Ok in H as (acc' & Hins & H).
    assert (all_ordered acc') as Hacc'.
    { rewrite (insert_sorted_perm _ _ _ _ _ Hins). by constructor. }
    destruct (IH acc' Hacc' Hl (insert_sorted_sorted _ _ _ Hx Hacc Hs Hins) H)
      as (Hr & Hp & Hf).
    split; [done|]. split.
    + rewrite Hp, (insert_sorted_perm _ _ _ _ _ Hins). simpl.
      apply Permutation_middle.
    + intros k Hk.
      rewrite (Hf k Hk), filter_app,
        (insert_sorted_stable k _ _ _ Hk Hx Hacc Hs Hins).
      rewrite (cons_middle x acc l), !filter_app. by rewrite <- app_assoc.
Qed.

Lemma StronglySorted_reverse (R : relation A) l :
  StronglySorted R l → StronglySorted (flip R) (reverse l).
Proof.
  induction 1 as [|x l Hl IH Hx]; [constructor|].
  rewrite reverse_cons. apply StronglySorted_app_2; [|done|repeat constructor].
  intros y z Hy ->%list_elem_of_singleton. rewrite Forall_forall in Hx.
  apply Hx. by apply elem_of_reverse.
Qed.

(** [sorted(l, key=key, reverse=True)], on keys that are ordered, is a
    permutation of [l] in which no element is below a later one and
    elements with the same key keep the order they have in [l]. *)
Lemma sorted_reverse_spec l r :
  all_ordered l →
  sorted_reverse key lt l = Ok r →
  StronglySorted (flip key_le) r ∧ r ≡ₚ l ∧
  ∀ k, ordered k → filter (has_key k) r = filter (has_key k) l.
Proof.
  unfold sorted_reverse, sorted_asc. intros Hl H.
  apply outcome_fmap_Ok in H as (s & Hs & ->).
  destruct (sort_into_spec [] _ _ (Forall_nil_2 _)
              (proj2 (Forall_reverse _ _) Hl) (SSorted_nil _) Hs)
    as (Hsorted & Hp & Hf).
  simpl in Hp, Hf. split; [by apply StronglySorted_reverse|]. split.
  - by rewrite reverse_Permutation, Hp, reverse_Permutation.
  - intros k Hk.
    by rewrite filter_reverse, (Hf k Hk), <- filter_reverse, reverse_involutive.
Qed.

End SortingFacts.

(** ** The order on severities *)

Lemma string_ltb_true s t : string_ltb s t = true ↔ String_as_OT.lt s t.
Proof.
  unfold string_ltb, String_as_OT.lt.
  destruct (String_as_OT.compare s t); split; congruence.
Qed.

Lemma string_ltb_false s t :
  string_ltb s t = false ↔ s = t ∨ String_as_OT.lt t s.
Proof.
  unfold string_ltb.
  destruct (String_as_OT.compare_spec s t) as [Heq|Hlt|Hgt].
  - split; [intros _; by left|done].
  - split; [discriminate|]. intros [->|Hgt].
    + by apply (irreflexivity String_as_OT.lt) in Hlt.
    + destruct (irreflexivity String_as_OT.lt s). by etransitivity.
  - split; [intros _; by right|done].
Qed.

(** The order of the numbers. *)
Lemma Qltb_true p q : Qltb p q = true ↔ (p < q)%Q.
Proof.
  unfold Qltb. rewrite Qlt_alt. by destruct (p ?= q)%Q.
Qed.

Lemma Qltb_false p q : Qltb p q = false ↔ (q <= p)%Q.
Proof.
  rewrite <- not_true_iff_false, Qltb_true.
  split; [apply Qnot_lt_le|apply Qle_not_lt].
Qed.

Lemma Qltb_inject_Z x y : Qltb (inject_Z x) (inject_Z y) = (x <? y).
Proof.
  destruct (x <? y) eqn:H.
  - apply Qltb_true. rewrite <- Zlt_Qlt. lia.
  - apply Qltb_false. rewrite <- Zle_Qle. lia.
Qed.

Lemma number_ltb_asym x y : number_ltb x y = true → number_ltb y x = false.
Proof.
  destruct x as [| |p|], y as [| |q|]; simpl; try done.
  rewrite Qltb_true, Qltb_false. apply Qlt_le_weak.
Qed.

Lemma number_le_trans x y z :
  x ≠ NNaN → y ≠ NNaN → z ≠ NNaN →
  number_ltb y x = false → number_ltb z y = false → number_ltb z x = false.
Proof.
  destruct x as [| |p|], y as [| |q|], z as [| |r|]; simpl; try done.
  rewrite !Qltb_false. intros _ _ _ H1 H2. by apply (Qle_trans _ q).
Qed.

Lemma number_lt_le_trans x y z :
  x ≠ NNaN → y ≠ NNaN → z ≠ NNaN →
  number_ltb x y = true → number_ltb z y = false → number_ltb x z = true.
Proof.
  destruct x as [| |p|], y as [| |q|], z as [| |r|]; simpl; try done.
  rewrite !Qltb_true, Qltb_false. intros _ _ _ H1 H2.
  by eapply Qlt_le_trans.
Qed.

Lemma as_number_nan v x :
  as_number v = Some x → is_nan v = false → x ≠ NNaN.
Proof.
  destruct v as [|b|n|[|[]| |q]| | |]; simpl; intros; by simplify_eq.
Qed.

(** [py_lt] answers exactly on two numbers and on two strings. *)
Lemma py_lt_Ok a b r :
  py_lt a b = Ok r ↔
  (∃ x y, as_number a = Some x ∧ as_number b = Some y ∧ r = number_ltb x y) ∨
  (∃ s t, a = JStr s ∧ b = JStr t ∧ r = string_ltb s t).
Proof.
  split.
  - destruct a, b; simpl; intros H; try discriminate; simplify_eq; eauto 10.
  - intros [(x & y & Ha & Hb & ->)|(u & t & -> & -> & ->)]; [|done].
    destruct a, b; simpl in *; by simplify_eq.
Qed.

Lemma py_lt_asym a b : py_lt a b = Ok true → py_lt b a = Ok false.
Proof.
  rewrite !py_lt_Ok.
  intros [(x & y & Ha & Hb & Hr)|(s & t & -> & -> & Hr)]; [left|right].
  - exists y, x. repeat split; [done..|]. symmetry. by apply number_ltb_asym.
  - exists t, s. repeat split. symmetry.
    apply string_ltb_false. right. by apply string_ltb_true.
Qed.

(** Away from NaN, [py_lt] is the comparison of a total preorder. *)
Lemma py_le_trans a b c :
  is_nan a = false → is_nan b = false → is_nan c = false →
  py_lt b a = Ok false → py_lt c b = Ok false → py_lt c a = Ok false.
Proof.
  intros Hna Hnb Hnc. rewrite !py_lt_Ok.
  intros [(x & y & Hb & Ha & Hr)|(s & t & -> & -> & Hr)]
         [(x' & y' & Hc & Hb' & Hr')|(s' & t' & -> & Hb' & Hr')];
    simplify_eq; simpl in *; try discriminate; [left|right].
  - exists x', y. repeat split; [done..|]. symmetry.
    apply (number_le_trans y x x'); eauto using as_number_nan.
  - exists s', t. repeat split. symmetry.
    symmetry in Hr, Hr'. apply string_ltb_false in Hr, Hr'.
    apply string_ltb_false.
    destruct Hr as [->|Hr], Hr' as [->|Hr']; auto.
    right. by etransitivity.
Qed.

Lemma py_lt_le_trans a b c :
  is_nan a = false → is_nan b = false → is_nan c = false →
  py_lt a b = Ok true → py_lt c b = Ok false → py_lt a c = Ok true.
Proof.
  intros Hna Hnb Hnc. rewrite !py_lt_Ok.
  intros [(x & y & Ha & Hb & Hr)|(s & t & -> & -> & Hr)]
         [(x' & y' & Hc & Hb' & Hr')|(s' & t' & -> & Hb' & Hr')];
    simplify_eq; simpl in *; try discriminate; [left|right].
  - exists x, x'. repeat split; [done..|]. symmetry.
    apply (number_lt_le_trans x y x'); eauto using as_number_nan.
  - exists s, s'. repeat split. symmetry.
    symmetry in Hr, Hr'. apply string_ltb_true in Hr.
    apply string_ltb_false in Hr'. apply string_ltb_true.
    destruct Hr' as [->|Hr']; [done|]. by etransitivity.
Qed.

(** On integer severities, [at_least_as_severe] is the order of the
    integers. *)
Lemma at_least_as_severe_int (a b : dict) x y :
  severity_key a = JInt x → severity_key b = JInt y →
  at_least_as_severe a b ↔ y ≤ x.
Proof.
  unfold at_least_as_severe, key_le. intros -> ->. simpl.
  rewrite Qltb_inject_Z.
  split; [intros [= H]|intros H; f_equal]; lia.
Qed.

(** ** The report *)

Lemma offensive_only_filter cs l :
  offensive_only cs = Ok l → l = filter offensive cs.
Proof.
  revert l. induction cs as [|c cs IH]; intros l H; simpl in H.
  - by simplify_eq.
  - apply outcome_bind_Ok in H as (b & Hb & H).
    apply outcome_bind_Ok in H as (rest & Hrest & H).
    simplify_eq. rewrite (IH _ Hrest). destruct b.
    + by rewrite filter_cons_True.
    + rewrite filter_cons_False; [done|]. unfold offensive. congruence.
Qed.

(** The sort of Python values: on keys without a NaN it is the stable sort,
    and what it returns is always a rearrangement of the list. *)
Lemma py_sorted_reverse_ordered {A} (key : A → json) (l : list A) :
  Forall (λ x, is_nan (key x) = false) l →
  py_sorted_reverse key l = sorted_reverse key py_lt l.
Proof.
  intros Hl. unfold py_sorted_reverse.
  destruct (existsb _ l) eqn:Hnan; [|done].
  apply existsb_exists in Hnan as (x & Hx%list_elem_of_In & Hnan).
  rewrite Forall_forall in Hl. rewrite (Hl x Hx) in Hnan. done.
Qed.

Lemma py_sorted_reverse_perm {A} (key : A → json) (l r : list A) :
  py_sorted_reverse key l = Ok r → r ≡ₚ l.
Proof.
  unfold py_sorted_reverse. destruct (existsb _ l).
  - destruct (one_run key py_lt (reverse l)) as [[]| |]; simpl; try done.
    by intros [= <-].
  - apply sorted_reverse_perm.
Qed.

Lemma py_sorted_reverse_spec {A} (key : A → json) (l r : list A) :
  Forall (λ x, is_nan (key x) = false) l →
  py_sorted_reverse key l = Ok r →
  StronglySorted (flip (key_le key py_lt)) r ∧ r ≡ₚ l ∧
  ∀ k, is_nan k = false →
       filter (has_key key py_lt k) r = filter (has_key key py_lt k) l.
Proof.
  intros Hl. rewrite (py_sorted_reverse_ordered _ _ Hl).
  by apply (sorted_reverse_spec key py_lt (λ k, is_nan k = false)
              py_lt_asym py_le_trans py_lt_le_trans).
Qed.

(** What [generate_report] returns, field by field. *)
Lemma generate_report_Ok cs r :
  generate_report cs = Ok r →
  ∃ ranked,
    py_sorted_reverse severity_key (filter offensive cs) = Ok ranked ∧
    counter_of (λ c, dict_getitem c "offense_type") cs [] = Ok (offense_types r) ∧
    total_comments r = length cs ∧
    offensive_comments r = length (filter offensive cs) ∧
    most_offensive r = take 5 ranked ∧
    all_offensive r = filter offensive cs.
Proof.
  unfold generate_report. intros H.
  apply outcome_bind_Ok in H as (n & Hn & H).
  apply outcome_fmap_Ok in Hn as (offs & Hoffs & ->).
  apply outcome_bind_Ok in H as (types & Htypes & H).
  rewrite Hoffs in H. simpl in H.
  apply outcome_bind_Ok in H as (ranked & Hranked & H).
  simplify_eq. apply offensive_only_filter in Hoffs as ->.
  exists ranked. by simpl.
Qed.


(** ** The monad of the run *)

Lemma bind_run {A B} (m : M A) (f : A → M B) t :
  (m ≫= f) t =
  match m t with
  | (Ok a, t') => f a t'
  | (Raise e, t') => (Raise e, t')
  | (Unmodelled, t') => (Unmodelled, t')
  end.
Proof. reflexivity. Qed.

Lemma bind_emit {B} (e : event) (f : unit → M B) t :
  (emit e ≫= f) t = f () (t ++ [e]).
Proof. reflexivity. Qed.

Lemma bind_print {B} (line : list frag) (f : unit → M B) t :
  (print line ≫= f) t = f () (t ++ [Printed line]).
Proof. reflexivity. Qed.

Lemma bind_ret {A B} (a : A) (f : A → M B) t : (mret a ≫= f) t = f a t.
Proof. reflexivity. Qed.

Lemma bind_lift {A B} (o : outcome A) (f : A → M B) t :
  (lift o ≫= f) t =
  match o with
  | Ok a => f a t
  | Raise e => (Raise e, t)
  | Unmodelled => (Unmodelled, t)
  end.
Proof. by destruct o. Qed.

Lemma written_app t1 t2 : written (t1 ++ t2) = written t1 ++ written t2.
Proof. apply omap_app. Qed.

Lemma requests_app t1 t2 : requests (t1 ++ t2) = requests t1 ++ requests t2.
Proof. apply omap_app. Qed.

Lemma writes_nothing_ret {A} (a : A) : writes_nothing (mret a).
Proof. by intros t. Qed.

Lemma writes_nothing_lift {A} (o : outcome A) : writes_nothing (lift o).
Proof. by intros t. Qed.

Lemma writes_nothing_print line : writes_nothing (print line).
Proof. intros t. unfold print, emit. simpl. by rewrite written_app, app_nil_r. Qed.

Lemma writes_nothing_bind {A B} (m : M A) (f : A → M B) :
  writes_nothing m → (∀ a, writes_nothing (f a)) → writes_nothing (m ≫= f).
Proof.
  intros Hm Hf t. rewrite bind_run. specialize (Hm t).
  destruct (m t) as [[a|e|] t']; simpl in *; [|done..].
  by rewrite Hf.
Qed.

Lemma writes_nothing_try {A} (body : M A) (handler : exn → M A) :
  writes_nothing body → (∀ e, writes_nothing (handler e)) →
  writes_nothing (try_except body handler).
Proof.
  intros Hb Hh t. unfold try_except. specialize (Hb t).
  destruct (body t) as [[a|e|] t']; simpl in *; [done| |done].
  by rewrite Hh.
Qed.

Create HintDb quiet.
#[local] Hint Resolve writes_nothing_ret writes_nothing_lift writes_nothing_print
  writes_nothing_bind writes_nothing_try : quiet.

Section ProgramFacts.
Context (env : environment).

Lemma writes_nothing_chat text : writes_nothing (chat_completion_create env text).
Proof.
  intros t. unfold chat_completion_create. simpl.
  by rewrite written_app, app_nil_r.
Qed.

Lemma writes_nothing_analyze text : writes_nothing (analyze_comment env text).
Proof.
  unfold analyze_comment.
  auto 10 using writes_nothing_chat with quiet.
Qed.

Lemma writes_nothing_annotate comment : writes_nothing (annotate env comment).
Proof.
  unfold annotate, raise. destruct comment;
    auto 10 using writes_nothing_analyze with quiet.
Qed.

Lemma writes_nothing_annotate_all comments :
  writes_nothing (annotate_all env comments).
Proof.
  induction comments as [|c cs IH]; simpl;
    auto 10 using writes_nothing_annotate with quiet.
Qed.

Lemma writes_nothing_listing idx comments :
  writes_nothing (print_listing idx comments).
Proof.
  revert idx. induction comments as [|c cs IH]; intros idx; simpl;
    auto 20 with quiet.
Qed.

Lemma writes_nothing_breakdown types : writes_nothing (print_breakdown types).
Proof.
  induction types as [|[k n] types IH]; simpl; auto 10 with quiet.
Qed.

Lemma writes_nothing_summary r output_file :
  writes_nothing (print_summary r output_file).
Proof.
  unfold print_summary.
  repeat (apply writes_nothing_bind; [|intros ?]);
    try destruct (all_offensive r); try destruct (most_offensive r);
    auto 10 using writes_nothing_listing, writes_nothing_breakdown with quiet.
Qed.

Lemma writes_nothing_load path : writes_nothing (load_comments env path).
Proof. unfold load_comments. auto 10 with quiet. Qed.
End ProgramFacts.

(** ** The classification client *)

(** C1.  When the call to the service raises, or the content it returns is
    not parseable JSON, [analyze_comment] returns the default record,
    having printed the error, and raises nothing; and the step of the loop
    of [main] for a comment whose classification fails so completes, with
    the default fields in the record. *)
Theorem analyze_comment_failure (env : environment) (text : json) (t : trace) :
  (∃ e, chat_completion env (length (requests t)) text = Raise e) ∨
  (∃ content e, chat_completion env (length (requests t)) text = Ok content ∧
                json_loads env content = Raise e) →
  (∃ e, analyze_comment env text t =
        (Ok (JObj {[ "is_offensive" := JBool false;
                     "offense_type" := JStr "error";
                     "severity" := JInt 1;
                     "explanation" := JStr "Error in analysis" ]}),
         t ++ [Requested text; Printed [FText "Error analyzing comment: "; FExn e]])) ∧
  ∀ c : dict, c !! "comment_text" = Some text →
    ∃ c', (annotate env (JObj c) t).1 = Ok c' ∧
          c' !! "is_offensive" = Some (JBool false) ∧
          c' !! "offense_type" = Some (JStr "error") ∧
          c' !! "severity" = Some (JInt 1) ∧
          c' !! "explanation" = Some (JStr "Error in analysis").
Proof.
  intros Hfail.
  assert (∃ e, analyze_comment env text t =
               (Ok (JObj error_analysis),
                t ++ [Requested text; Printed [FText "Error analyzing comment: "; FExn e]]))
    as [e He].
  { unfold analyze_comment, try_except, chat_completion_create.
    rewrite !bind_run.
    destruct Hfail as [[e He]|(content & e & Hc & He)].
    - rewrite He. exists e. rewrite bind_run. simpl.
      by rewrite <- app_assoc.
    - rewrite Hc. rewrite bind_run. unfold lift. rewrite He.
      exists e. rewrite bind_run. simpl. by rewrite <- app_assoc. }
  split; [by exists e|].
  intros c Hc. unfold annotate. rewrite !bind_run. unfold lift, dict_getitem.
  rewrite Hc, lookup_insert_ne by done. rewrite Hc, !bind_run, He. simpl.
  eexists. split; [done|].
  by rewrite !(lookup_union_l' _ _ _) by (by eexists).
Qed.

(** ** The annotation loop *)

Section LoopFacts.
Context (env : environment).

(** A successful [analyze_comment] returns the parsed content of the
    response, or the default record after a failure. *)
Lemma analyze_comment_Ok text t v t' :
  analyze_comment env text t = (Ok v, t') →
  requests t' = requests t ++ [text] ∧
  (v = JObj error_analysis ∨
   ∃ content, chat_completion env (length (requests t)) text = Ok content ∧
              json_loads env content = Ok v).
Proof.
  unfold analyze_comment, try_except, chat_completion_create.
  rewrite !bind_run.
  destruct (chat_completion env _ text) as [content|e|] eqn:Hc.
  - rewrite bind_run. unfold lift.
    destruct (json_loads env content) as [w|e|] eqn:Hw.
    + intros [= <- <-]. rewrite requests_app. eauto.
    + rewrite bind_run. simpl. intros [= <- <-].
      rewrite !requests_app. simpl. rewrite app_nil_r. eauto.
    + discriminate.
  - rewrite bind_run. simpl. intros [= <- <-].
    rewrite !requests_app. simpl. rewrite app_nil_r. eauto.
  - discriminate.
Qed.

Lemma annotate_Ok comment t c' t' :
  annotate env comment t = (Ok c', t') →
  ∃ c text analysis,
    comment = JObj c ∧ c !! "comment_text" = Some text ∧
    analyze_comment env text t = (Ok analysis, t') ∧
    dict_update (<["contains_profanity" := JBool (contains_profanity env text)]> c)
                analysis = Ok c'.
Proof.
  unfold annotate. destruct comment as [| | | | | |c]; try discriminate.
  rewrite !bind_run. unfold lift, dict_getitem.
  destruct (c !! "comment_text") as [text|] eqn:Htext; [|discriminate].
  rewrite lookup_insert_ne by done. rewrite Htext, !bind_run.
  destruct (analyze_comment env text t) as [[analysis|e|] t1] eqn:Ha;
    [|discriminate..].
  intros H. exists c, text, analysis.
  destruct (dict_update _ analysis) eqn:Hu; simplify_eq. done.
Qed.

Lemma annotate_all_Ok comments t l t' :
  annotate_all env comments t = (Ok l, t') →
  match comments, l with
  | [], [] => t' = t
  | comment :: rest, c :: l' =>
      ∃ t1, annotate env comment t = (Ok c, t1) ∧
            annotate_all env rest t1 = (Ok l', t')
  | _, _ => False
  end.
Proof.
  destruct comments as [|comment rest]; simpl.
  - by intros [= <- <-].
  - rewrite bind_run.
    destruct (annotate env comment t) as [[c|e|] t1] eqn:Hc; [|discriminate..].
    rewrite bind_run.
    destruct (annotate_all env rest t1) as [[l'|e|] t2] eqn:Hrest;
      [|discriminate..].
    intros [= <- <-]. eauto.
Qed.

(** [update] only adds fields. *)
Lemma dict_update_dom (c : dict) other c' :
  dict_update c other = Ok c' → dom c ⊆ dom c'.
Proof.
  destruct other as [| | | |s|[|]|m]; simpl; try discriminate.
  - destruct (String.eqb s ""); [|discriminate]. by intros [= <-].
  - by intros [= <-].
  - intros [= <-]. rewrite dom_union. set_solver.
Qed.

Lemma annotate_fields comment t c' t' :
  annotate env comment t = (Ok c', t') →
  fields comment ⊆ dom c' ∧ "contains_profanity" ∈ dom c'.
Proof.
  intros (c & text & analysis & -> & _ & _ & Hu%dict_update_dom)%annotate_Ok.
  rewrite dom_insert in Hu. simpl. set_solver.
Qed.

(** The loop yields one record per comment, in order, each with at least
    the fields of its comment; and it sends one request per comment, the
    text of that comment. *)
Lemma annotate_all_spec comments t l t' :
  annotate_all env comments t = (Ok l, t') →
  Forall2 (λ comment c', fields comment ⊆ dom c') comments l ∧
  ∃ texts, requests t' = requests t ++ texts ∧
           Some <$> texts = comment_text_of <$> comments.
Proof.
  revert t l. induction comments as [|comment rest IH]; intros t l H;
    apply annotate_all_Ok in H; destruct l as [|c l']; try done.
  - subst. split; [constructor|]. exists []. by rewrite app_nil_r.
  - destruct H as (t1 & Hc & Hrest).
    destruct (IH _ _ Hrest) as (Hf & texts & Hreq & Htexts). split.
    + constructor; [|done]. by eapply annotate_fields.
    + apply annotate_Ok in Hc as (c0 & text & analysis & -> & Htext & Ha & _).
      apply analyze_comment_Ok in Ha as [Hreq1 _].
      exists (text :: texts). split.
      * by rewrite Hreq, Hreq1, <- app_assoc.
      * rewrite !fmap_cons, Htexts. simpl. by rewrite Htext.
Qed.
End LoopFacts.

(** ** The profanity check and the classification *)

Lemma dict_update_prefilter (c : dict) (x y : json) (analysis : json) :
  delete "contains_profanity" <$> dict_update (<["contains_profanity" := x]> c) analysis
  = delete "contains_profanity" <$> dict_update (<["contains_profanity" := y]> c) analysis.
Proof.
  destruct analysis as [| | | |s|[|]|m]; simpl; try done.
  - destruct (String.eqb s ""); simpl; [|done]. by rewrite !delete_insert_eq.
  - by rewrite !delete_insert_eq.
  - f_equal. apply map_eq. intros k.
    destruct (decide (k = "contains_profanity")) as [->|Hk].
    + by rewrite !lookup_delete_eq.
    + rewrite !lookup_delete_ne by done.
      by rewrite !lookup_union, !lookup_insert_ne.
Qed.

Lemma annotate_prefilter env f g comment t :
  (annotate (with_prefilter f env) comment t).2
  = (annotate (with_prefilter g env) comment t).2 ∧
  delete "contains_profanity" <$> (annotate (with_prefilter f env) comment t).1
  = delete "contains_profanity" <$> (annotate (with_prefilter g env) comment t).1.
Proof.
  unfold annotate. destruct comment as [| | | | | |c]; try done.
  rewrite !bind_run. unfold lift, dict_getitem.
  destruct (c !! "comment_text") as [text|] eqn:Htext; [|done].
  rewrite !lookup_insert_ne by done. rewrite Htext, !bind_run.
  change (analyze_comment (with_prefilter f env) text)
    with (analyze_comment env text).
  change (analyze_comment (with_prefilter g env) text)
    with (analyze_comment env text).
  destruct (analyze_comment env text t) as [[analysis|e|] t1]; try done.
  simpl. split; [done|]. apply dict_update_prefilter.
Qed.

(** C9.  Two runs of the annotation loop that differ only in the profanity
    check produce the same events (the same requests to the service, with
    the same texts, and the same error lines), end the same way, and yield
    records that agree on every field but [contains_profanity], so on the
    four classification fields; the requests are the texts of the comments,
    one per comment. *)
Theorem prefilter_does_not_gate (env : environment) (f g : json → bool)
    (comments : list json) (t : trace) :
  let r1 : outcome (list dict) * trace :=
    annotate_all (with_prefilter f env) comments t in
  let r2 : outcome (list dict) * trace :=
    annotate_all (with_prefilter g env) comments t in
  r1.2 = r2.2 ∧
  without_prefilter <$> r1.1 = without_prefilter <$> r2.1 ∧
  (∀ l1 l2, r1.1 = Ok l1 → r2.1 = Ok l2 →
     Forall2 (λ c1 c2 : dict,
                c1 !! "is_offensive" = c2 !! "is_offensive" ∧
                c1 !! "offense_type" = c2 !! "offense_type" ∧
                c1 !! "severity" = c2 !! "severity" ∧
                c1 !! "explanation" = c2 !! "explanation") l1 l2) ∧
  (∀ l1, r1.1 = Ok l1 →
     ∃ texts : list json,
       requests r1.2 = requests t ++ texts ∧
       Some <$> texts = comment_text_of <$> comments).
Proof.
  simpl.
  assert ((annotate_all (with_prefilter f env) comments t).2
          = (annotate_all (with_prefilter g env) comments t).2 ∧
          without_prefilter <$> (annotate_all (with_prefilter f env) comments t).1
          = without_prefilter <$> (annotate_all (with_prefilter g env) comments t).1)
    as [Ht Ho].
  { revert t. induction comments as [|comment rest IH]; intros t; [done|].
    simpl. rewrite !bind_run.
    destruct (annotate_prefilter env f g comment t) as [Ht Ho].
    destruct (annotate (with_prefilter f env) comment t) as [[c1|e1|] t1],
             (annotate (with_prefilter g env) comment t) as [[c2|e2|] t2];
      simpl in *; simplify_eq; try done.
    rewrite !bind_run. destruct (IH t2) as [Ht' Ho'].
    destruct (annotate_all (with_prefilter f env) rest t2) as [[l1|e1|] t1'],
             (annotate_all (with_prefilter g env) rest t2) as [[l2|e2|] t2'];
      simpl in *; simplify_eq; try done.
    split; [done|]. congruence. }
  split; [done|]. split; [done|]. split.
  - intros l1 l2 H1 H2. rewrite H1, H2 in Ho. simpl in Ho.
    injection Ho as Ho. clear -Ho. unfold without_prefilter in Ho. revert l2 Ho.
    induction l1 as [|c1 l1 IH]; intros [|c2 l2] Ho; try done.
    rewrite !fmap_cons in Ho. injection Ho as Hc Hl.
    constructor; [|by apply IH].
    assert (∀ k, k ≠ "contains_profanity" → c1 !! k = c2 !! k) as Hk.
    { intros k Hne.
      rewrite <- (lookup_delete_ne c1 "contains_profanity" k) by done.
      rewrite <- (lookup_delete_ne c2 "contains_profanity" k) by done.
      by rewrite Hc. }
    repeat split; by apply Hk.
  - intros l1 H1.
    destruct (annotate_all (with_prefilter f env) comments t) as [o t'] eqn:H.
    simpl in *. subst o. by apply annotate_all_spec in H as [_ ?].
Qed.

(** ** Records that reach the aggregation *)

Lemma offensive_only_total (l : list dict) :
  Forall (λ c : dict, is_Some (c !! "is_offensive")) l →
  ∃ offs, offensive_only l = Ok offs.
Proof.
  induction 1 as [|c l [v Hv] _ [offs IH]]; simpl; [eauto|].
  unfold is_offensive, dict_getitem. rewrite Hv. simpl. rewrite IH. simpl. eauto.
Qed.

(** C3, amended.  When every response of the service that parses is a JSON
    object with the field [is_offensive], every record the completed loop
    hands to [generate_report] has that field, and selecting the offensive
    records raises no error.  (A failed call gives the default record,
    which has the field.) *)
Theorem annotated_have_is_offensive (env : environment) (comments : list json)
    (t : trace) (l : list dict) (t' : trace) :
  (∀ n text content v,
     chat_completion env n text = Ok content →
     json_loads env content = Ok v →
     ∃ m : dict, v = JObj m ∧ is_Some (m !! "is_offensive")) →
  annotate_all env comments t = (Ok l, t') →
  Forall (λ c : dict, is_Some (c !! "is_offensive")) l ∧
  ∃ offs, offensive_only l = Ok offs.
Proof.
  intros Hsvc H.
  assert (Forall (λ c : dict, is_Some (c !! "is_offensive")) l) as Hall;
    [|split; [done|by apply offensive_only_total]].
  revert t l H. induction comments as [|comment rest IH]; intros t l H;
    apply annotate_all_Ok in H; destruct l as [|c l']; try done.
  destruct H as (t1 & Hc & Hrest). constructor; [|by eapply IH].
  apply annotate_Ok in Hc as (c0 & text & analysis & -> & _ & Ha & Hu).
  apply analyze_comment_Ok in Ha as [_ [->|(content & Hc & Hv)]].
  - simpl in Hu. simplify_eq. exists (JBool false).
    by apply lookup_union_Some_l.
  - destruct (Hsvc _ _ _ _ Hc Hv) as (m & -> & [x Hx]).
    simpl in Hu. simplify_eq. exists x. by apply lookup_union_Some_l.
Qed.

(** ** The files a run writes *)

Lemma load_comments_run env path t :
  load_comments env path t = (load_result env path, t).
Proof.
  unfold load_result, load_comments. rewrite !bind_run. unfold lift.
  destruct (open_read env path) as [text|e|]; [|done..].
  rewrite !bind_run. destruct (json_loads env text) as [data|e|]; done.
Qed.

Lemma generate_report_offensive_only cs r :
  generate_report cs = Ok r → offensive_only cs = Ok (filter offensive cs).
Proof.
  unfold generate_report. intros H.
  apply outcome_bind_Ok in H as (n & Hn & _).
  apply outcome_fmap_Ok in Hn as (offs & Hoffs & _).
  by rewrite Hoffs, (offensive_only_filter _ _ Hoffs).
Qed.

(** The charts: nothing, or the bar chart, or the bar chart and then the pie
    chart, each written as an HTML page whatever the format asked for. *)
Lemma create_visualizations_written o r records output_file t :
  ∃ charts pie,
    written (create_visualizations o r records output_file t).2
    = written t ++ charts ∧
    charts `prefix_of`
      [ (chart_path output_file "_offense_distribution." (plot_fmt o),
         HtmlPage (Bar (offense_types r).*1 (offense_types r).*2));
        (chart_path output_file "_severity_distribution." (plot_fmt o),
         HtmlPage pie) ] ∧
    (charts ≠ [] ↔ create_plots o = true ∧ offense_types r ≠ []).
Proof.
  unfold create_visualizations.
  destruct (create_plots o); [destruct (offense_types r) as [|ty tys] eqn:Hty|].
  - exists [], (Pie [] []). simpl. rewrite app_nil_r.
    split; [done|]. split; [apply prefix_nil|]. intuition congruence.
  - unfold plot_offense_distribution, plot_severity_distribution, write_html.
    rewrite bind_emit, bind_print, bind_run, bind_lift.
    destruct (counter_of _ records []) as [counts|e|]; simpl.
    + eexists [_; _], _.
      rewrite !written_app. simpl. rewrite !app_nil_r, <- app_assoc. simpl.
      split; [reflexivity|]. split; [done|]. intuition congruence.
    + eexists [_], (Pie [] []).
      rewrite !written_app. simpl. rewrite !app_nil_r.
      split; [reflexivity|]. split; [by eexists [_]|]. intuition congruence.
    + eexists [_], (Pie [] []).
      rewrite !written_app. simpl. rewrite !app_nil_r.
      split; [reflexivity|]. split; [by eexists [_]|]. intuition congruence.
  - exists [], (Pie [] []). simpl. rewrite app_nil_r.
    split; [done|]. split; [apply prefix_nil|]. intuition congruence.
Qed.

(** The export writes its file, or raises when the file cannot be
    created. *)
Lemma export_to_json_run env v out t :
  export_to_json env v out t =
  if can_create env (made_dirs t) out
  then (Ok (), t ++ [Written out (JsonText v)])
  else (Raise OSError, t).
Proof.
  unfold export_to_json, open_write. rewrite bind_run.
  by destruct (can_create env (made_dirs t) out).
Qed.

(** What a run writes.  Either it stops before the export and writes
    nothing, or it has loaded the comments, annotated them, built the
    report, and written first the export and then the charts. *)
Lemma run_written env o res t :
  run env o = (res, t) →
  written t = [] ∧ res ≠ Ok () ∨
  ∃ comments items annotated t0 t1 r charts pie,
    load_result env (input_file o) = Ok comments ∧
    py_iter comments = Ok items ∧
    requests t0 = [] ∧
    annotate_all env items t0 = (Ok annotated, t1) ∧
    generate_report annotated = Ok r ∧
    let out := if filter_offensive o then offensive_path (output_file o)
               else output_file o in
    written t =
      (out,
       JsonText (if filter_offensive o
                 then JArr (JObj <$> filter offensive annotated)
                 else match comments with
                      | JArr _ => JArr (JObj <$> annotated)
                      | v => v
                      end)) :: charts ∧
    charts `prefix_of`
      [ (chart_path out "_offense_distribution." (plot_fmt o),
         HtmlPage (Bar (offense_types r).*1 (offense_types r).*2));
        (chart_path out "_severity_distribution." (plot_fmt o),
         HtmlPage pie) ] ∧
    (charts ≠ [] ↔ create_plots o = true ∧ offense_types r ≠ []).
Proof.
  unfold run, main, makedirs. intros Hrun.
  rewrite bind_run in Hrun.
  destruct (String.eqb (dirname (output_file o)) "");
    [unfold raise, lift in Hrun; simplify_eq; by left|].
  unfold emit at 1 in Hrun.
  rewrite bind_print, bind_run, load_comments_run in Hrun.
  destruct (load_result env (input_file o)) as [comments|e|] eqn:Hload;
    [|simplify_eq; by left..].
  rewrite bind_lift in Hrun.
  destruct (py_len comments) as [n|e|]; [|simplify_eq; by left..].
  rewrite !bind_print, bind_lift in Hrun.
  destruct (py_iter comments) as [items|e|] eqn:Hiter;
    [|simplify_eq; by left..].
  rewrite bind_run in Hrun.
  match type of Hrun with context [annotate_all env items ?t] =>
    set (t0 := t) in Hrun
  end.
  pose proof (writes_nothing_annotate_all env items t0) as Hquiet.
  destruct (annotate_all env items t0) as [[annotated|e|] t1] eqn:Hann;
    simpl in Hquiet; [|simplify_eq; by left..].
  rewrite bind_lift in Hrun.
  destruct (generate_report annotated) as [r|e|] eqn:Hr;
    [|simplify_eq; by left..].
  pose proof (generate_report_offensive_only _ _ Hr) as Hoffs.
  rewrite bind_run in Hrun.
  destruct (filter_offensive o).
  - rewrite bind_lift, Hoffs in Hrun. unfold mret, M_ret in Hrun.
    cbn beta iota in Hrun. rewrite bind_run, export_to_json_run in Hrun.
    destruct (can_create env (made_dirs t1) _);
      [|left; simplify_eq; split; [by rewrite Hquiet|done]].
    right. exists comments, items, annotated, t0, t1, r.
    rewrite bind_run in Hrun.
    match type of Hrun with context [create_visualizations o r ?rs ?p ?t] =>
      destruct (create_visualizations_written o r rs p t)
        as (charts & pie & Hw & Hpre & Hne);
      destruct (create_visualizations o r rs p t) as [[[]|e|] t2]
    end; simpl in Hw; rewrite written_app, Hquiet in Hw; simpl in Hw;
      exists charts, pie; cbv zeta; split_and!; try done.
    + pose proof (writes_nothing_summary r (offensive_path (output_file o)) t2) as Hs.
      unfold offensive_path in *. rewrite Hrun in Hs. simpl in Hs. congruence.
    + by simplify_eq.
    + by simplify_eq.
  - unfold mret, M_ret in Hrun.
    cbn beta iota in Hrun. rewrite bind_run, export_to_json_run in Hrun.
    destruct (can_create env (made_dirs t1) _);
      [|left; simplify_eq; split; [by rewrite Hquiet|done]].
    right. exists comments, items, annotated, t0, t1, r.
    rewrite bind_run in Hrun.
    match type of Hrun with context [create_visualizations o r ?rs ?p ?t] =>
      destruct (create_visualizations_written o r rs p t)
        as (charts & pie & Hw & Hpre & Hne);
      destruct (create_visualizations o r rs p t) as [[[]|e|] t2]
    end; simpl in Hw; rewrite written_app, Hquiet in Hw; simpl in Hw;
      exists charts, pie; cbv zeta; split_and!; try done.
    + pose proof (writes_nothing_summary r (output_file o) t2) as Hs.
      rewrite Hrun in Hs. simpl in Hs. congruence.
    + by simplify_eq.
    + by simplify_eq.
Qed.

(** ** The export *)

Lemma charts_are_html (charts : list (string * file_content)) p1 f1 p2 f2 path c :
  charts `prefix_of` [(p1, HtmlPage f1); (p2, HtmlPage f2)] →
  (path, c) ∈ charts →
  ∃ fig, c = HtmlPage fig ∧ (path = p1 ∨ path = p2).
Proof.
  intros [rest Hrest] Hin.
  assert ((path, c) ∈ charts ++ rest) as Hin' by (apply elem_of_app; by left).
  rewrite <- Hrest in Hin'.
  apply elem_of_cons in Hin' as [?|Hin']; [simplify_eq; eauto|].
  apply elem_of_cons in Hin' as [?|Hin']; [simplify_eq; eauto|].
  by apply elem_of_nil in Hin'.
Qed.

Lemma py_iter_length comments items n :
  py_iter comments = Ok items → py_len comments = Ok n → length items = n.
Proof.
  destruct comments as [| | | |s|l|m]; simpl; intros; simplify_eq.
  - rewrite length_fmap. clear. induction s as [|a s IH]; simpl; congruence.
  - done.
  - by rewrite !length_fmap, length_map_to_list.
Qed.

Lemma annotate_all_length env comments t l t' :
  annotate_all env comments t = (Ok l, t') → length l = length comments.
Proof.
  intros [H _]%annotate_all_spec. symmetry. by eapply Forall2_length.
Qed.

(** C6.  Without [--filter-offensive], for an input sequence of length N,
    whatever the run exports is written to the output path and is a
    sequence of N records, each with at least the fields of the input record
    at its position; and a run that ends without an error has exported. *)
Theorem unfiltered_export_keeps_records (env : environment) (o : options)
    (l : list json) (res : outcome unit) (t : trace) :
  filter_offensive o = false →
  load_result env (input_file o) = Ok (JArr l) →
  run env o = (res, t) →
  (∀ path v, (path, JsonText v) ∈ written t →
     path = output_file o ∧
     ∃ l', v = JArr l' ∧ length l' = length l ∧
           Forall2 (λ a b, ∃ c : dict, b = JObj c ∧ fields a ⊆ dom c) l l') ∧
  (res = Ok () → ∃ v, (output_file o, JsonText v) ∈ written t).
Proof.
  intros Hfilter Hload Hrun.
  destruct (run_written _ _ _ _ Hrun) as [[Hnone Hres]|
    (comments & items & annotated & t0 & t1 & r & charts & pie &
     Hload' & Hiter & _ & Hann & _ & Hw & Hpre & _)].
  { rewrite Hnone. split; [by intros ?? ?%elem_of_nil|done]. }
  rewrite Hload in Hload'. simplify_eq. simpl in Hiter. simplify_eq.
  rewrite Hfilter in Hw, Hpre. cbv zeta in Hw. rewrite Hw. split.
  - intros path v [Heq|Hin]%elem_of_cons.
    + simplify_eq. split; [done|]. eexists. split; [done|].
      apply annotate_all_spec in Hann as [Hf _].
      rewrite length_fmap. split; [symmetry; by eapply Forall2_length|].
      apply Forall2_fmap_r. eapply Forall2_impl; [exact Hf|]. eauto.
    + by destruct (charts_are_html _ _ _ _ _ _ _ Hpre Hin) as (fig & ? & _).
  - intros _. eexists. by left.
Qed.

(** C7, amended.  With [--filter-offensive], whatever the run exports is a
    sequence of records, no longer than the loaded sequence, and every
    record in it has an [is_offensive] that is true as a condition (so
    [true] where it is a boolean). *)
Theorem filtered_export_only_offensive (env : environment) (o : options)
    (comments : json) (n : nat) (res : outcome unit) (t : trace) :
  filter_offensive o = true →
  load_result env (input_file o) = Ok comments →
  py_len comments = Ok n →
  run env o = (res, t) →
  ∀ path v, (path, JsonText v) ∈ written t →
    ∃ kept : list dict,
      v = JArr (JObj <$> kept) ∧ (length kept ≤ n)%nat ∧
      Forall (λ c : dict,
                ∃ x, c !! "is_offensive" = Some x ∧ py_truthy x = true ∧
                     ∀ b, x = JBool b → b = true) kept.
Proof.
  intros Hfilter Hload Hlen Hrun.
  destruct (run_written _ _ _ _ Hrun) as [[Hnone Hres]|
    (comments' & items & annotated & t0 & t1 & r & charts & pie &
     Hload' & Hiter & _ & Hann & _ & Hw & Hpre & _)].
  { rewrite Hnone. by intros ?? ?%elem_of_nil. }
  rewrite Hload in Hload'. simplify_eq.
  rewrite Hfilter in Hw, Hpre. cbv zeta in Hw. rewrite Hw.
  intros path v [Heq|Hin]%elem_of_cons.
  - simplify_eq. eexists. split; [done|]. split.
    + rewrite <- (py_iter_length _ _ _ Hiter Hlen).
      rewrite <- (annotate_all_length _ _ _ _ _ Hann). apply length_filter.
    + apply Forall_forall. intros c [Hc _]%list_elem_of_filter.
      unfold offensive, is_offensive, dict_getitem in Hc.
      destruct (c !! "is_offensive") as [x|]; [|done].
      simpl in Hc. exists x. split; [done|]. split; [congruence|].
      intros b ->. simpl in Hc. congruence.
  - by destruct (charts_are_html _ _ _ _ _ _ _ Hpre Hin) as (fig & ? & _).
Qed.

(** ** The charts *)

(** No run writes a static image: every file written is the JSON export or
    an HTML page, whatever [--plot-format] says. *)
Lemma charts_never_static env o res t path c :
  run env o = (res, t) → (path, c) ∈ written t →
  (∃ v, c = JsonText v) ∨ (∃ fig, c = HtmlPage fig).
Proof.
  intros Hrun Hin.
  destruct (run_written _ _ _ _ Hrun) as [[Hnone _]|
    (comments & items & annotated & t0 & t1 & r & charts & pie &
     _ & _ & _ & _ & _ & Hw & Hpre & _)].
  { rewrite Hnone in Hin. by apply elem_of_nil in Hin. }
  cbv zeta in Hw. rewrite Hw in Hin.
  apply elem_of_cons in Hin as [?|Hin]; [simplify_eq; eauto|].
  destruct (charts_are_html _ _ _ _ _ _ _ Hpre Hin) as (fig & ? & _). eauto.
Qed.

(** C4, at the failing input.  With [--plot-format png] the run writes the
    two charts to the [.png] paths, and what it writes there are HTML
    pages. *)
Theorem png_charts_are_html_pages :
  drop 1 (written (run (sample_env two_comments_text service_toxic) png_options).2) =
  [ ("output/analyzed_comments_offense_distribution.png"%string,
     HtmlPage (Bar [JStr "toxicity"] [1%nat]));
    ("output/analyzed_comments_severity_distribution.png"%string,
     HtmlPage (Pie [[FText "Severity "; FVal (JInt 4)]] [1%nat])) ].
Proof. vm_compute. reflexivity. Qed.

(** ** The path of the filtered export *)

(** For a path that ends in [.json] and has no other dot, the marker goes
    before the extension. *)
Lemma replace_from_no_dot old new stem rest :
  (∀ a old', old = String a old' → a = "."%char) →
  old ≠ EmptyString →
  Forall (λ a, a ≠ "."%char) (list_ascii_of_string stem) →
  replace_from old new 0 (stem ++ rest)%string
  = (stem ++ replace_from old new 0 rest)%string.
Proof.
  intros Hdot Hne. induction stem as [|a stem IH]; intros Hall; [done|].
  simpl in Hall. apply Forall_cons in Hall as [Ha Hall].
  change (String a stem ++ rest)%string with (String a (stem ++ rest)%string).
  cbn [replace_from].
  destruct old as [|b old']; [done|].
  assert (b = "."%char) as -> by (by eapply Hdot).
  cbn [String.prefix].
  destruct (ascii_dec "." a) as [<-|Hneq]; [done|].
  simpl. by rewrite IH.
Qed.

Lemma offensive_path_json stem :
  Forall (λ a, a ≠ "."%char) (list_ascii_of_string stem) →
  offensive_path (stem ++ ".json") = (stem ++ "_offensive.json")%string.
Proof.
  intros Hall. unfold offensive_path, str_replace.
  rewrite replace_from_no_dot; [done| |done|done].
  by intros a old' [= <- _].
Qed.

(** C5, at the failing inputs.  The example of the claim comes out as the
    claim says; a path with another extension is left as it is, so that
    the filtered export goes to the path of the unfiltered one; and a
    [.json] earlier in the path gets the marker too. *)
Theorem offensive_path_examples :
  offensive_path "output/analyzed_comments.json"
    = "output/analyzed_comments_offensive.json"%string ∧
  offensive_path "out/results.txt" = "out/results.txt"%string ∧
  offensive_path "runs.json/analyzed.json"
    = "runs_offensive.json/analyzed_offensive.json"%string ∧
  (splitext "out/results.txt").1 = "out/results"%string ∧
  (splitext "runs.json/analyzed.json").1 = "runs.json/analyzed"%string ∧
  written (run (sample_env two_comments_text service_toxic) filtered_txt_options).2 =
    [ ("out/results.txt"%string, JsonText (JArr [JObj rude_toxic])) ].
Proof. vm_compute. repeat split; reflexivity. Qed.

(** ** The loader *)

(** C8, amended.  [load_comments] has no effect on the run but the read, and
    returns the value stored under the key [comments] of the file, whatever
    that value is, when the file can be read and holds a JSON object with
    that key; it raises the error of the read or of the parse, [KeyError]
    when the object has no such key, and [TypeError] when the JSON value is
    no object. *)
Theorem load_comments_contract (env : environment) (file_path : string) (t : trace) :
  (load_comments env file_path t).2 = t ∧
  (load_comments env file_path t).1 =
    match open_read env file_path with
    | Ok text =>
        match json_loads env text with
        | Ok (JObj data) =>
            match data !! "comments" with
            | Some comments => Ok comments
            | None => Raise (KeyError "comments")
            end
        | Ok _ => Raise TypeError
        | Raise e => Raise e
        | Unmodelled => Unmodelled
        end
    | Raise e => Raise e
    | Unmodelled => Unmodelled
    end.
Proof.
  rewrite load_comments_run. split; [done|]. simpl.
  unfold load_result, load_comments. rewrite !bind_run. unfold lift.
  destruct (open_read env file_path) as [text|e|]; [|done..].
  rewrite !bind_run. destruct (json_loads env text) as [data|e|]; [|done..].
  by destruct data.
Qed.

(** ** Records without a severity *)

Lemma with_default_severity_lookup (c : dict) k :
  k ≠ "severity"%string → with_default_severity c !! k = c !! k.
Proof.
  intros Hk. unfold with_default_severity.
  destruct (c !! "severity"); [done|]. by rewrite lookup_insert_ne.
Qed.

Lemma severity_key_default (c : dict) :
  severity_key (with_default_severity c) = severity_key c.
Proof.
  unfold severity_key, dict_get, with_default_severity.
  destruct (c !! "severity") as [v|] eqn:Hv; [by rewrite Hv|].
  by rewrite lookup_insert_eq.
Qed.

Lemma is_offensive_default (c : dict) :
  is_offensive (with_default_severity c) = is_offensive c.
Proof.
  unfold is_offensive, dict_getitem.
  by rewrite with_default_severity_lookup.
Qed.

Lemma offensive_only_fmap (g : dict → dict) (cs : list dict) :
  (∀ c, is_offensive (g c) = is_offensive c) →
  offensive_only (g <$> cs) = (fmap g : list dict → list dict) <$> offensive_only cs.
Proof.
  intros Hg. induction cs as [|c cs IH]; [done|].
  rewrite fmap_cons. simpl. rewrite Hg, IH.
  destruct (is_offensive c) as [[]| |]; simpl; try done;
    by destruct (offensive_only cs).
Qed.

Lemma counter_of_fmap (f : dict → outcome json) (g : dict → dict)
    (cs : list dict) cnt :
  (∀ c, is_offensive (g c) = is_offensive c) →
  (∀ c, f (g c) = f c) →
  counter_of f (g <$> cs) cnt = counter_of f cs cnt.
Proof.
  intros Hg Hf. revert cnt. induction cs as [|c cs IH]; intros cnt; [done|].
  rewrite fmap_cons. simpl. rewrite Hg, Hf.
  destruct (is_offensive c) as [[]| |]; simpl; try done.
  destruct (f c) as [k| |]; simpl; try done.
  destruct (counter_add k cnt); simpl; [apply IH|done..].
Qed.

Section SortingMap.
Context {A K : Type} (key : A → K) (lt : K → K → outcome bool) (g : A → A).
Hypothesis key_g : ∀ x, key (g x) = key x.

Lemma insert_sorted_fmap x (l : list A) :
  insert_sorted key lt (g x) (g <$> l)
  = (fmap g : list A → list A) <$> insert_sorted key lt x l.
Proof.
  induction l as [|y l IH]; [done|].
  rewrite fmap_cons. simpl. rewrite !key_g.
  destruct (lt (key x) (key y)) as [[]| |]; simpl; try done.
  rewrite IH. by destruct (insert_sorted key lt x l).
Qed.

Lemma sort_into_fmap (acc l : list A) :
  sort_into key lt (g <$> acc) (g <$> l)
  = (fmap g : list A → list A) <$> sort_into key lt acc l.
Proof.
  revert acc. induction l as [|x l IH]; intros acc; [done|].
  rewrite fmap_cons. simpl. rewrite insert_sorted_fmap.
  destruct (insert_sorted key lt x acc) as [acc'| |]; simpl; [apply IH|done..].
Qed.

Lemma sorted_reverse_fmap (l : list A) :
  sorted_reverse key lt (g <$> l)
  = (fmap g : list A → list A) <$> sorted_reverse key lt l.
Proof.
  unfold sorted_reverse, sorted_asc.
  rewrite <- fmap_reverse.
  change (@nil A) with (g <$> @nil A) at 1. rewrite sort_into_fmap.
  destruct (sort_into key lt [] (reverse l)) as [s| |]; simpl; try done.
  by rewrite fmap_reverse.
Qed.

Lemma one_run_fmap (l : list A) :
  one_run key lt (g <$> l) = one_run key lt l.
Proof.
  induction l as [|x l IH]; [done|]. destruct l as [|y l]; [done|].
  rewrite !fmap_cons in *. cbn [one_run]. rewrite !key_g.
  destruct (lt (key y) (key x)) as [[]| |]; simpl; try done.
  cbn [one_run] in IH. by rewrite key_g in IH.
Qed.
End SortingMap.

Lemma py_sorted_reverse_fmap {A} (key : A → json) (g : A → A) (l : list A) :
  (∀ x, key (g x) = key x) →
  py_sorted_reverse key (g <$> l)
  = (fmap g : list A → list A) <$> py_sorted_reverse key l.
Proof.
  intros Hg. unfold py_sorted_reverse.
  assert (existsb (λ x, is_nan (key x)) (g <$> l)
          = existsb (λ x, is_nan (key x)) l) as ->.
  { induction l as [|x l IH]; [done|]. rewrite fmap_cons. simpl.
    by rewrite Hg, IH. }
  destruct (existsb _ l).
  - rewrite <- fmap_reverse, (one_run_fmap key py_lt g Hg).
    by destruct (one_run key py_lt (reverse l)) as [[]| |].
  - by apply sorted_reverse_fmap.
Qed.

Lemma generate_report_default (cs : list dict) :
  generate_report (with_default_severity <$> cs)
  = report_map with_default_severity <$> generate_report cs.
Proof.
  unfold generate_report.
  rewrite (offensive_only_fmap _ _ is_offensive_default).
  rewrite (counter_of_fmap _ _ _ _ is_offensive_default)
    by (intros c; unfold dict_getitem; by rewrite with_default_severity_lookup).
  rewrite length_fmap.
  destruct (offensive_only cs) as [offs| |]; simpl; try done.
  rewrite length_fmap.
  destruct (counter_of _ cs []) as [types| |]; simpl; try done.
  rewrite (py_sorted_reverse_fmap _ _ _ severity_key_default).
  destruct (py_sorted_reverse severity_key offs) as [ranked| |]; simpl; try done.
  unfold report_map. simpl. by rewrite fmap_take.
Qed.

Lemma dict_getitem_default (c : dict) k :
  k ≠ "severity"%string →
  dict_getitem (with_default_severity c) k = dict_getitem c k.
Proof.
  intros Hk. unfold dict_getitem. by rewrite with_default_severity_lookup.
Qed.

Lemma print_listing_default idx (cs : list dict) t :
  print_listing idx (with_default_severity <$> cs) t = print_listing idx cs t.
Proof.
  revert idx t. induction cs as [|c cs IH]; intros idx t; [done|].
  rewrite fmap_cons. cbn [print_listing].
  rewrite !bind_lift, dict_getitem_default by done.
  destruct (dict_getitem c "username"); [|done..].
  rewrite !bind_print, !bind_lift, dict_getitem_default by done.
  destruct (dict_getitem c "comment_text"); [|done..].
  rewrite !bind_print, !bind_lift, dict_getitem_default by done.
  destruct (dict_getitem c "offense_type"); [|done..].
  rewrite !bind_print.
  change (dict_get (with_default_severity c) "severity" (JInt 1))
    with (severity_key (with_default_severity c)).
  rewrite severity_key_default.
  rewrite !bind_lift, dict_getitem_default by done.
  destruct (dict_getitem c "explanation"); [|done..].
  rewrite !bind_print. apply IH.
Qed.

Lemma counter_of_total (f : dict → outcome json) (cs : list dict) cnt :
  Forall (λ c, ∃ b, is_offensive c = Ok b ∧
               ∃ k, f c = Ok k ∧ hashable k = true) cs →
  ∃ cnt', counter_of f cs cnt = Ok cnt'.
Proof.
  intros H. revert cnt.
  induction H as [|c cs (b & Hb & k & Hk & Hh) _ IH]; intros cnt; simpl; [eauto|].
  rewrite Hb. simpl. destruct b; [|apply IH].
  rewrite Hk. simpl. unfold counter_add. rewrite Hh. simpl. apply IH.
Qed.

Lemma print_listing_total idx (cs : list dict) t :
  Forall (λ c : dict, is_Some (c !! "username") ∧ is_Some (c !! "comment_text") ∧
                      is_Some (c !! "offense_type") ∧ is_Some (c !! "explanation")) cs →
  (print_listing idx cs t).1 = Ok ().
Proof.
  intros H. revert idx t.
  induction H as [|c cs ([u Hu] & [x Hx] & [y Hy] & [z Hz]) _ IH]; intros idx t;
    [done|].
  cbn [print_listing]. unfold dict_getitem. rewrite Hu, Hx, Hy, Hz.
  rewrite bind_lift, bind_print, bind_lift, bind_print, bind_lift, !bind_print,
    bind_lift, bind_print.
  apply IH.
Qed.

Lemma well_formed_severity_int (c : dict) :
  well_formed_but_severity c → ∃ n, severity_key c = JInt n.
Proof.
  intros (_ & _ & _ & _ & Hsev & _). unfold severity_key, dict_get.
  destruct (c !! "severity") as [v|]; [by apply Hsev|by exists 1].
Qed.

Lemma well_formed_is_offensive (c : dict) :
  well_formed_but_severity c → ∃ b, is_offensive c = Ok b.
Proof.
  intros (_ & _ & [b Hb] & _). unfold is_offensive, dict_getitem.
  rewrite Hb. simpl. eauto.
Qed.

Lemma generate_report_total (cs : list dict) :
  Forall well_formed_but_severity cs → ∃ r, generate_report cs = Ok r.
Proof.
  intros Hwf. unfold generate_report.
  destruct (offensive_only_total cs) as [offs Hoffs].
  { eapply Forall_impl; [exact Hwf|]. intros c (_ & _ & [b Hb] & _). by exists (JBool b). }
  rewrite Hoffs. simpl.
  destruct (counter_of_total (λ c, dict_getitem c "offense_type") cs []) as [types ->].
  { eapply Forall_impl; [exact Hwf|]. intros c Hc.
    destruct (well_formed_is_offensive c Hc) as [b Hb].
    destruct Hc as (_ & _ & _ & [s Hs] & _).
    exists b. split; [done|]. exists (JStr s). unfold dict_getitem. by rewrite Hs. }
  simpl. apply offensive_only_filter in Hoffs as ->.
  rewrite Forall_forall in Hwf.
  rewrite py_sorted_reverse_ordered.
  2: { apply Forall_forall. intros x [_ Hx]%list_elem_of_filter.
       by destruct (well_formed_severity_int x (Hwf _ Hx)) as [n ->]. }
  destruct (sorted_reverse_total severity_key py_lt (filter offensive cs))
    as [ranked ->]; [|simpl; eauto].
  intros x y [_ Hx]%list_elem_of_filter [_ Hy]%list_elem_of_filter.
  destruct (well_formed_severity_int x (Hwf _ Hx)) as [n ->].
  destruct (well_formed_severity_int y (Hwf _ Hy)) as [m ->].
  simpl. eauto.
Qed.

(** The records of a report are records of the input. *)
Lemma report_records cs r :
  generate_report cs = Ok r →
  all_offensive r ⊆ cs ∧ most_offensive r ⊆ cs.
Proof.
  intros (ranked & Hranked & _ & _ & _ & -> & ->)%generate_report_Ok.
  assert (filter offensive cs ⊆ cs) as Hsub.
  { intros c. rewrite list_elem_of_filter. tauto. }
  split; [done|].
  pose proof (py_sorted_reverse_perm _ _ _ Hranked) as Hperm.
  intros c Hc. apply Hsub. rewrite <- Hperm.
  by eapply subseteq_take.
Qed.


(** * The theorems at sample inputs *)

(** The report of the sample records: the five most severe, the three of
    severity 4 in input order. *)
Example sample_report_most_offensive :
  most_offensive <$> generate_report sample_records
  = Ok [ verdict "u4" "hate_speech" (Some 5); verdict "u1" "toxicity" (Some 4);
         verdict "u3" "harassment" (Some 4); verdict "u7" "harassment" (Some 4);
         verdict "u8" "profanity" (Some 3) ].
Proof. by_evaluation. Qed.

Lemma sample_report_ok : generate_report sample_records = Ok sample_report.
Proof. by_evaluation. Qed.

Lemma sample_annotated_ok :
  annotate_all (sample_env two_comments_text service_toxic)
    [JObj hello_comment; JObj rude_comment] []
  = (Ok sample_annotated.1, sample_annotated.2).
Proof. by_evaluation. Qed.

(** C1 at a sample: the service is down. *)
Lemma analyze_comment_failure_witness :
  chat_completion (sample_env two_comments_text service_down) 0 (JStr "hello")
    = Raise APIError ∧
  analyze_comment (sample_env two_comments_text service_down) (JStr "hello") []
    = (Ok (JObj error_analysis),
       [Requested (JStr "hello");
        Printed [FText "Error analyzing comment: "; FExn APIError]]) ∧
  (annotate (sample_env two_comments_text service_down) (JObj hello_comment) []).1
    = Ok hello_failed.
Proof.
  split; [reflexivity|].
  destruct (analyze_comment_failure
              (sample_env two_comments_text service_down) (JStr "hello") [])
    as [[e He] Hstep].
  { left. exists APIError. reflexivity. }
  split; [reflexivity|].
  destruct (Hstep hello_comment) as (c' & Hc' & _); [reflexivity|].
  by_evaluation.
Defined.



(** C3 at a sample, and against the claim.  With a service whose answers
    are objects with [is_offensive], or no JSON at all, every record has
    the field.  With a service that answers [{}], the loop completes and
    leaves both records without the field, and the report fails on the
    first of them. *)
Lemma annotated_have_is_offensive_witness :
  ∃ l t', annotate_all (sample_env two_comments_text service_toxic)
            [JObj hello_comment; JObj rude_comment] [] = (Ok l, t') ∧
          Forall (λ c : dict, is_Some (c !! "is_offensive")) l.
Proof.
  exists sample_annotated.1, sample_annotated.2.
  split; [exact sample_annotated_ok|].
  refine (proj1 (annotated_have_is_offensive _ _ _ _ _ _ sample_annotated_ok)).
  intros n text content v Hc Hv.
  destruct n; simpl in Hc; injection Hc as <-; vm_compute in Hv;
    [discriminate|].
  injection Hv as <-. eexists. split; [reflexivity|].
  eexists. vm_compute. reflexivity.
Defined.

Lemma empty_reply_leaves_is_offensive_missing :
  (annotate_all (sample_env two_comments_text service_empty)
     [JObj hello_comment; JObj rude_comment] []).1
    = Ok [flagged false hello_comment; flagged true rude_comment] ∧
  flagged false hello_comment !! "is_offensive" = None ∧
  flagged true rude_comment !! "is_offensive" = None ∧
  generate_report [flagged false hello_comment; flagged true rude_comment]
    = Raise (KeyError "is_offensive") ∧
  (run (sample_env two_comments_text service_empty) default_options).1
    = Raise (KeyError "is_offensive").
Proof. split_and!; by_evaluation. Qed.

(** C6 at a sample: the default command line, two comments. *)
Lemma unfiltered_export_keeps_records_witness :
  ∃ res t,
    run (sample_env two_comments_text service_toxic) default_options = (res, t) ∧
    res = Ok () ∧
    ∀ path v, (path, JsonText v) ∈ written t →
      path = "output/analyzed_comments.json"%string ∧
      ∃ l', v = JArr l' ∧ length l' = 2%nat ∧
            Forall2 (λ a b, ∃ c : dict, b = JObj c ∧ fields a ⊆ dom c)
                    [JObj hello_comment; JObj rude_comment] l'.
Proof.
  destruct (run (sample_env two_comments_text service_toxic) default_options)
    as [res t] eqn:Hrun.
  exists res, t. split; [reflexivity|].
  split; [vm_compute in Hrun; by simplify_eq|].
  refine (proj1 (unfiltered_export_keeps_records _ default_options
                   [JObj hello_comment; JObj rude_comment] res t _ _ Hrun));
    vm_compute; reflexivity.
Defined.

(** C7 at a sample, and against the claim.  With ["yes"] for
    [is_offensive], both records pass the filter, and the export holds them
    with ["yes"], which is not [true]. *)
Lemma filtered_export_only_offensive_witness :
  ∃ res t,
    run (sample_env two_comments_text service_toxic) filtered_options = (res, t) ∧
    ∀ path v, (path, JsonText v) ∈ written t →
      ∃ kept : list dict,
        v = JArr (JObj <$> kept) ∧ (length kept ≤ 2)%nat ∧
        Forall (λ c : dict,
                  ∃ x, c !! "is_offensive" = Some x ∧ py_truthy x = true ∧
                       ∀ b, x = JBool b → b = true) kept.
Proof.
  destruct (run (sample_env two_comments_text service_toxic) filtered_options)
    as [res t] eqn:Hrun.
  exists res, t. split; [reflexivity|].
  refine (filtered_export_only_offensive _ filtered_options
            (JArr [JObj hello_comment; JObj rude_comment]) 2 res t _ _ _ Hrun);
    vm_compute; reflexivity.
Defined.

Lemma yes_survives_filter :
  take 1 (written (run (sample_env two_comments_text service_yes)
                       filtered_options).2)
    = [ ("output/analyzed_comments_offensive.json"%string,
         JsonText (JArr [JObj hello_yes; JObj rude_yes])) ] ∧
  hello_yes !! "is_offensive" = Some (JStr "yes") ∧
  rude_yes !! "is_offensive" = Some (JStr "yes") ∧
  JStr "yes" ≠ JBool true.
Proof. vm_compute. repeat split; try reflexivity. discriminate. Qed.

(** C8 against the claim: a file that holds [{"comments": 5}] is loaded
    without an error, and what is returned is 5, no sequence of records. *)
Lemma load_comments_returns_non_sequence :
  load_comments (sample_env comments_5_text service_down) "data/comments.json" []
    = (Ok (JInt 5), []).
Proof. vm_compute. reflexivity. Qed.



(** * Further properties *)

(** ** Counters *)

Lemma number_eqb_sym x y : number_eqb x y = number_eqb y x.
Proof.
  destruct x as [| |p|], y as [| |q|]; simpl; try done.
  destruct (Qeq_bool p q) eqn:H1, (Qeq_bool q p) eqn:H2; try done.
  - apply Qeq_bool_iff, Qeq_sym, Qeq_bool_iff in H1. congruence.
  - apply Qeq_bool_iff, Qeq_sym, Qeq_bool_iff in H2. congruence.
Qed.

Lemma number_eqb_trans x y z :
  number_eqb x y = true → number_eqb x z = number_eqb y z.
Proof.
  destruct x as [| |p|], y as [| |q|], z as [| |r|]; simpl; try done.
  intros Hpq%Qeq_bool_iff.
  destruct (Qeq_bool p r) eqn:H1, (Qeq_bool q r) eqn:H2; try done.
  - apply Qeq_bool_iff in H1.
    assert (Qeq_bool q r = true); [|congruence].
    apply Qeq_bool_iff. apply (Qeq_trans _ p); [by apply Qeq_sym|done].
  - apply Qeq_bool_iff in H2.
    assert (Qeq_bool p r = true); [|congruence].
    apply Qeq_bool_iff. by apply (Qeq_trans _ q).
Qed.

Lemma key_eqb_true a b :
  key_eqb a b = true ↔
  (a = JNull ∧ b = JNull) ∨
  (∃ s, a = JStr s ∧ b = JStr s) ∨
  (∃ x y, as_number a = Some x ∧ as_number b = Some y ∧ number_eqb x y = true).
Proof.
  split.
  - destruct a, b; cbv [key_eqb]; cbn [as_number]; intros H;
      try discriminate; eauto 10;
      try (apply String.eqb_eq in H; subst; eauto 10).
  - intros [[-> ->]|[(s & -> & ->)|(x & y & Ha & Hb & Hxy)]].
    + done.
    + apply String.eqb_refl.
    + destruct a, b; cbv [key_eqb]; cbn [as_number] in *; by simplify_eq.
Qed.

Lemma key_eqb_sym a b : key_eqb a b = key_eqb b a.
Proof.
  assert (∀ a b, key_eqb a b = true → key_eqb b a = true) as Hsym.
  { intros x y. rewrite !key_eqb_true.
    intros [[-> ->]|[(s & -> & ->)|(z & z' & Hx & Hy & Hz)]]; eauto 10.
    do 2 right. exists z', z. by rewrite number_eqb_sym. }
  destruct (key_eqb a b) eqn:H1, (key_eqb b a) eqn:H2; try done.
  - apply Hsym in H1. congruence.
  - apply Hsym in H2. congruence.
Qed.

Lemma key_eqb_trans a b c :
  key_eqb a b = true → key_eqb a c = key_eqb b c.
Proof.
  assert (∀ a b c, key_eqb a b = true → key_eqb b c = true →
                   key_eqb a c = true) as Htrans.
  { intros x y z. rewrite !key_eqb_true.
    intros [[-> ->]|[(s & -> & ->)|(n & m & Hx & Hy & Hnm)]]
           [[? ->]|[(s' & ? & ->)|(m' & k & Hy' & Hz & Hmk)]];
      simplify_eq; simpl in *; try discriminate; eauto 10.
    do 2 right. exists n, k. split_and!; [done..|].
    by rewrite (number_eqb_trans _ _ _ Hnm). }
  intros Hab. destruct (key_eqb b c) eqn:Hbc; [by eapply Htrans|].
  destruct (key_eqb a c) eqn:Hac; [|done].
  rewrite key_eqb_sym in Hab. by rewrite (Htrans _ _ _ Hab Hac) in Hbc.
Qed.

Lemma counter_get_incr k k' cnt :
  counter_get k (counter_incr k' cnt)
  = ((if key_eqb k' k then 1 else 0) + counter_get k cnt)%nat.
Proof.
  induction cnt as [|[k'' n] cnt IH]; simpl.
  - destruct (key_eqb k' k); lia.
  - destruct (key_eqb k'' k') eqn:Hk; simpl.
    + rewrite <- (key_eqb_trans _ _ k Hk). destruct (key_eqb k'' k); lia.
    + destruct (key_eqb k'' k) eqn:Hk'; [|apply IH].
      rewrite (key_eqb_sym k' k), <- (key_eqb_trans _ _ k' Hk'), Hk. lia.
Qed.

Lemma counter_incr_different k cnt :
  StronglySorted different_keys cnt →
  StronglySorted different_keys (counter_incr k cnt).
Proof.
  induction 1 as [|[k' n] cnt Hs IH Hall]; simpl.
  - repeat constructor.
  - destruct (key_eqb k' k) eqn:Hk; constructor; try done.
    clear -Hall Hk.
    induction Hall as [|[k'' m] cnt Hd Hall IH]; simpl.
    + by repeat constructor.
    + destruct (key_eqb k'' k); constructor; done.
Qed.

Lemma counter_incr_positive k cnt :
  Forall (λ e : json * nat, (1 ≤ e.2)%nat) cnt →
  Forall (λ e : json * nat, (1 ≤ e.2)%nat) (counter_incr k cnt).
Proof.
  induction 1 as [|[k' n] cnt Hn Hall IH]; simpl.
  - repeat constructor.
  - destruct (key_eqb k' k); constructor; simpl in *; try done. lia.
Qed.

Lemma counter_incr_sum k cnt :
  sum_list (counter_incr k cnt).*2 = S (sum_list cnt.*2).
Proof.
  induction cnt as [|[k' n] cnt IH]; [done|].
  cbn [counter_incr]. destruct (key_eqb k' k); rewrite !fmap_cons; cbn [snd sum_list].
  - done.
  - rewrite IH. lia.
Qed.

(** What [Counter(f(c) for c in comments if c['is_offensive'])] holds when it
    is built without an error: different keys with positive counts, the
    count of a key being the number of offensive comments on which [f]
    gives that key. *)
Lemma counter_of_correct f (cs : list dict) cnt cnt' :
  counter_of f cs cnt = Ok cnt' →
  (StronglySorted different_keys cnt → StronglySorted different_keys cnt') ∧
  (Forall (λ e : json * nat, (1 ≤ e.2)%nat) cnt →
   Forall (λ e : json * nat, (1 ≤ e.2)%nat) cnt') ∧
  sum_list cnt'.*2 = (sum_list cnt.*2 + length (filter offensive cs))%nat ∧
  ∀ k, counter_get k cnt'
       = (counter_get k cnt + length (filter (counted_as f k) cs))%nat.
Proof.
  revert cnt. induction cs as [|c cs IH]; intros cnt H; simpl in H.
  - simplify_eq. split_and!; try done; intros; simpl; lia.
  - apply outcome_bind_Ok in H as (b & Hb & H). destruct b.
    + apply outcome_bind_Ok in H as (k & Hk & H).
      apply outcome_bind_Ok in H as (cnt1 & Hcnt1 & H).
      unfold counter_add in Hcnt1.
      destruct (hashable k); [|done]. simplify_eq.
      destruct (IH _ H) as (Hd & Hp & Hsum & Hget).
      split_and!.
      * intros ?. by apply Hd, counter_incr_different.
      * intros ?. by apply Hp, counter_incr_positive.
      * rewrite Hsum, counter_incr_sum, filter_cons_True by done. simpl. lia.
      * intros k0. rewrite Hget, counter_get_incr.
        destruct (key_eqb k k0) eqn:Hk0.
        -- rewrite filter_cons_True; [simpl; lia|].
           split; [done|]. by rewrite Hk.
        -- rewrite filter_cons_False; [lia|].
           intros [_ Hc]. rewrite Hk in Hc. congruence.
    + destruct (IH _ H) as (Hd & Hp & Hsum & Hget).
      assert (¬ offensive c) as Hno by (unfold offensive; congruence).
      split_and!; try done.
      * by rewrite Hsum, filter_cons_False.
      * intros k0. rewrite Hget, filter_cons_False; [done|]. by intros [? _].
Qed.

(** ** The counts of the report *)

(** X1.  In a report, [total_comments] is the number of records,
    [offensive_comments] the number of records in [all_offensive], never
    more than [total_comments], and the counts of [offense_types] add up to
    [offensive_comments]. *)
Theorem report_counts (cs : list dict) (r : report) :
  generate_report cs = Ok r →
  total_comments r = length cs ∧
  offensive_comments r = length (all_offensive r) ∧
  (offensive_comments r ≤ total_comments r)%nat ∧
  sum_list (offense_types r).*2 = offensive_comments r.
Proof.
  intros (ranked & _ & Htypes & -> & -> & _ & ->)%generate_report_Ok.
  split_and!; [done|done|apply length_filter|].
  by destruct (counter_of_correct _ _ _ _ Htypes) as (_ & _ & -> & _).
Qed.


Lemma report_counts_witness :
  total_comments sample_report = length sample_records ∧
  offensive_comments sample_report = length (all_offensive sample_report) ∧
  (offensive_comments sample_report ≤ total_comments sample_report)%nat ∧
  sum_list (offense_types sample_report).*2 = offensive_comments sample_report.
Proof. exact (report_counts sample_records sample_report sample_report_ok). Defined.

(** X2.  [offense_types] is a mapping: its keys are different, every count
    is positive, and the count of a key is the number of offensive records
    whose [offense_type] is that key (0 for a key that is not there). *)
Theorem offense_types_count (cs : list dict) (r : report) :
  generate_report cs = Ok r →
  StronglySorted different_keys (offense_types r) ∧
  Forall (λ e : json * nat, (1 ≤ e.2)%nat) (offense_types r) ∧
  ∀ k, counter_get k (offense_types r)
       = length (filter (counted_as (λ c, dict_getitem c "offense_type") k) cs).
Proof.
  intros (ranked & _ & Htypes & _)%generate_report_Ok.
  destruct (counter_of_correct _ _ _ _ Htypes) as (Hd & Hp & _ & Hget).
  split_and!; [apply Hd; constructor|apply Hp; constructor|].
  intros k. by rewrite Hget.
Qed.

Lemma offense_types_count_witness :
  StronglySorted different_keys (offense_types sample_report) ∧
  Forall (λ e : json * nat, (1 ≤ e.2)%nat) (offense_types sample_report) ∧
  ∀ k, counter_get k (offense_types sample_report)
       = length (filter (counted_as (λ c, dict_getitem c "offense_type") k)
                        sample_records).
Proof.
  exact (offense_types_count sample_records sample_report sample_report_ok).
Defined.

(** X3.  The segments of the severity chart: when the chart is made, one
    page is written, with one segment per different severity among the
    offensive comments (1 for a comment without one), named after it, the
    size of a segment being the number of offensive comments of that
    severity; the sizes add up to the number of offensive comments. *)
Theorem severity_chart_counts (cs : list dict) (path : string) (t t' : trace) :
  plot_severity_distribution cs path t = (Ok (), t') →
  ∃ counts,
    t' = t ++ [Written path
                 (HtmlPage (Pie ((λ k, [FText "Severity "; FVal k]) <$> counts.*1)
                                counts.*2))] ∧
    StronglySorted different_keys counts ∧
    sum_list counts.*2 = length (filter offensive cs) ∧
    ∀ k, counter_get k counts
         = length (filter (counted_as (λ c, Ok (severity_key c)) k) cs).
Proof.
  unfold plot_severity_distribution, write_html. rewrite bind_lift.
  destruct (counter_of _ cs []) as [counts| |] eqn:Hcounts; [|done..].
  intros [= <-]. exists counts.
  destruct (counter_of_correct _ _ _ _ Hcounts) as (Hd & _ & Hsum & Hget).
  split_and!; [done|apply Hd; constructor|done|].
  intros k. by rewrite Hget.
Qed.

Lemma sample_chart_ok :
  plot_severity_distribution sample_records "charts/severity.html" []
  = (Ok (), sample_chart.2).
Proof. vm_cast_no_check (eq_refl (Ok (), sample_chart.2)). Qed.

Lemma severity_chart_counts_witness :
  ∃ counts,
    sample_chart.2
    = [] ++ [Written "charts/severity.html"
               (HtmlPage (Pie ((λ k, [FText "Severity "; FVal k]) <$> counts.*1)
                              counts.*2))] ∧
    StronglySorted different_keys counts ∧
    sum_list counts.*2 = length (filter offensive sample_records) ∧
    ∀ k, counter_get k counts
         = length (filter (counted_as (λ c, Ok (severity_key c)) k) sample_records).
Proof.
  exact (severity_chart_counts sample_records "charts/severity.html" []
           sample_chart.2 sample_chart_ok).
Defined.

(** ** The ranking of the report *)



(** ** The report of the offensive records alone *)

Lemma offensive_only_defined (cs l : list dict) :
  offensive_only cs = Ok l → Forall (λ c, ∃ b, is_offensive c = Ok b) cs.
Proof.
  revert l. induction cs as [|c cs IH]; intros l H; simpl in H; [constructor|].
  apply outcome_bind_Ok in H as (b & Hb & H).
  apply outcome_bind_Ok in H as (rest & Hrest & _).
  constructor; eauto.
Qed.

Lemma offensive_only_id (l : list dict) :
  Forall offensive l → offensive_only l = Ok l.
Proof.
  induction 1 as [|c l Hc _ IH]; simpl; [done|].
  unfold offensive in Hc. rewrite Hc. simpl. by rewrite IH.
Qed.

Lemma Forall_filter_offensive (cs : list dict) : Forall offensive (filter offensive cs).
Proof. apply Forall_forall. by intros c [? _]%list_elem_of_filter. Qed.

Lemma counter_of_filter f (cs : list dict) cnt :
  Forall (λ c, ∃ b, is_offensive c = Ok b) cs →
  counter_of f (filter offensive cs) cnt = counter_of f cs cnt.
Proof.
  intros H. revert cnt. induction H as [|c cs [b Hb] _ IH]; intros cnt; [done|].
  simpl. rewrite Hb. simpl. destruct b.
  - rewrite filter_cons_True by done. simpl. rewrite Hb. simpl.
    destruct (f c) as [k| |]; simpl; [|done..].
    destruct (counter_add k cnt); simpl; [apply IH|done..].
  - rewrite filter_cons_False; [apply IH|]. unfold offensive. congruence.
Qed.

(** X5.  The report of the offensive records alone is the report of all
    the records, but for [total_comments]: the records that are not
    offensive add to that count and to nothing else. *)
Theorem report_of_all_offensive (cs : list dict) (r : report) :
  generate_report cs = Ok r →
  generate_report (all_offensive r)
  = Ok {| total_comments := offensive_comments r;
          offensive_comments := offensive_comments r;
          offense_types := offense_types r;
          most_offensive := most_offensive r;
          all_offensive := all_offensive r |}.
Proof.
  intros Hr. pose proof (generate_report_offensive_only _ _ Hr) as Hoffs.
  apply generate_report_Ok in Hr as (ranked & Hranked & Htypes & _ & -> & -> & ->).
  unfold generate_report.
  rewrite (offensive_only_id _ (Forall_filter_offensive cs)). simpl.
  rewrite (counter_of_filter _ _ _ (offensive_only_defined _ _ Hoffs)), Htypes.
  simpl. by rewrite Hranked.
Qed.

Lemma report_of_all_offensive_witness :
  generate_report (all_offensive sample_report)
  = Ok {| total_comments := offensive_comments sample_report;
          offensive_comments := offensive_comments sample_report;
          offense_types := offense_types sample_report;
          most_offensive := most_offensive sample_report;
          all_offensive := all_offensive sample_report |}.
Proof.
  exact (report_of_all_offensive sample_records sample_report sample_report_ok).
Defined.

(** ** The errors of the report *)

Lemma is_offensive_cases (c : dict) :
  (∃ v, c !! "is_offensive" = Some v ∧ is_offensive c = Ok (py_truthy v)) ∨
  (c !! "is_offensive" = None ∧ is_offensive c = Raise (KeyError "is_offensive")).
Proof.
  unfold is_offensive, dict_getitem.
  destruct (c !! "is_offensive") as [v|]; [left; by exists v|by right].
Qed.

Lemma offensive_only_cases (cs : list dict) :
  (Forall (λ c : dict, is_Some (c !! "is_offensive")) cs ∧
   ∃ l, offensive_only cs = Ok l) ∨
  ((∃ c : dict, c ∈ cs ∧ c !! "is_offensive" = None) ∧
   offensive_only cs = Raise (KeyError "is_offensive")).
Proof.
  induction cs as [|c cs IH]; simpl.
  - left. split; [constructor|eauto].
  - destruct (is_offensive_cases c) as [(v & Hv & ->)|[Hnone ->]]; simpl.
    + destruct IH as [[Hall [l ->]]|[(c' & Hin & Hnone) ->]]; simpl.
      * left. split; [constructor; eauto|eauto].
      * right. split; [|done]. exists c'. split; [by right|done].
    + right. split; [|done]. exists c. split; [by left|done].
Qed.

Lemma counter_of_Raise f (cs : list dict) cnt e :
  counter_of f cs cnt = Raise e →
  (e = KeyError "is_offensive" ∧ ∃ c : dict, c ∈ cs ∧ c !! "is_offensive" = None)
  ∨ e = TypeError ∨ ∃ c, c ∈ cs ∧ f c = Raise e.
Proof.
  revert cnt. induction cs as [|c cs IH]; intros cnt; simpl; [done|].
  destruct (is_offensive_cases c) as [(v & _ & ->)|[Hnone ->]]; simpl.
  2: { intros [= <-]. left. split; [done|]. exists c. split; [by left|done]. }
  assert (∀ cnt', counter_of f cs cnt' = Raise e →
            (e = KeyError "is_offensive"
             ∧ ∃ c0 : dict, c0 ∈ c :: cs ∧ c0 !! "is_offensive" = None)
            ∨ e = TypeError ∨ ∃ c0, c0 ∈ c :: cs ∧ f c0 = Raise e) as IH'.
  { intros cnt' [[-> (c0 & ? & ?)]|[?|(c0 & ? & ?)]]%IH; eauto.
    - left. split; [done|]. exists c0. split; [by right|done].
    - right. right. exists c0. split; [by right|done]. }
  destruct (py_truthy v); [|apply IH'].
  destruct (f c) as [k|e'|] eqn:Hf; simpl; [| |done].
  - unfold counter_add. destruct (hashable k); simpl; [apply IH'|].
    intros [= <-]. right. by left.
  - intros [= <-]. right. right. exists c. split; [by left|done].
Qed.

Section SortingErrors.
Context {A K : Type} (key : A → K) (lt : K → K → outcome bool).

Lemma insert_sorted_Raise x l e :
  insert_sorted key lt x l = Raise e → ∃ y, lt (key x) (key y) = Raise e.
Proof.
  induction l as [|y l IH]; simpl; [done|].
  destruct (lt (key x) (key y)) as [[]|e'|] eqn:Hlt; simpl; try done.
  - destruct (insert_sorted key lt x l); simpl; done.
  - intros [= <-]. eauto.
Qed.

Lemma sort_into_Raise acc l e :
  sort_into key lt acc l = Raise e → ∃ x y, lt (key x) (key y) = Raise e.
Proof.
  revert acc. induction l as [|x l IH]; intros acc; simpl; [done|].
  destruct (insert_sorted key lt x acc) as [acc'|e'|] eqn:Hins; simpl;
    [apply IH| |done].
  intros [= <-]. apply insert_sorted_Raise in Hins as [y Hy]. eauto.
Qed.

Lemma sorted_reverse_Raise l e :
  sorted_reverse key lt l = Raise e → ∃ x y, lt (key x) (key y) = Raise e.
Proof.
  unfold sorted_reverse, sorted_asc.
  destruct (sort_into key lt [] (reverse l)) as [s|e'|] eqn:Hs; simpl; try done.
  intros [= <-]. by eapply sort_into_Raise.
Qed.
End SortingErrors.

Lemma py_lt_Raise a b e : py_lt a b = Raise e → e = TypeError.
Proof.
  destruct a, b; cbv [py_lt as_number]; intros; by simplify_eq.
Qed.

Lemma one_run_Raise {A} (key : A → json) (l : list A) e :
  one_run key py_lt l = Raise e → e = TypeError.
Proof.
  induction l as [|x [|y l] IH]; cbn [one_run]; [done..|].
  destruct (py_lt (key y) (key x)) as [[]|e'|] eqn:Hlt; simpl; try done.
  intros [= <-]. by eapply py_lt_Raise.
Qed.

Lemma py_sorted_reverse_Raise {A} (key : A → json) (l : list A) e :
  py_sorted_reverse key l = Raise e → e = TypeError.
Proof.
  unfold py_sorted_reverse. destruct (existsb _ l).
  - destruct (one_run key py_lt (reverse l)) as [[]|e'|] eqn:Hrun; simpl; try done.
    intros [= <-]. by eapply one_run_Raise.
  - intros (x & y & Hxy)%sorted_reverse_Raise. by eapply py_lt_Raise.
Qed.

(** X6.  The errors of [generate_report]: it raises [KeyError] for
    [is_offensive] exactly when some record has no such field; and whatever
    it raises is that error, a [KeyError] for [offense_type], or a
    [TypeError] (an offense type that cannot be hashed, severities that
    cannot be ordered). *)
Theorem generate_report_errors (cs : list dict) :
  (generate_report cs = Raise (KeyError "is_offensive") ↔
   ∃ c : dict, c ∈ cs ∧ c !! "is_offensive" = None) ∧
  ∀ e, generate_report cs = Raise e →
       e = KeyError "is_offensive" ∨ e = KeyError "offense_type" ∨ e = TypeError.
Proof.
  assert (∀ e, generate_report cs = Raise e →
    (e = KeyError "is_offensive" ∧ ∃ c : dict, c ∈ cs ∧ c !! "is_offensive" = None)
    ∨ e = KeyError "offense_type" ∨ e = TypeError) as Herr.
  { intros e. unfold generate_report.
    destruct (offensive_only_cases cs) as [[Hall [l Hl]]|[Hex Hl]]; rewrite Hl; simpl.
    - destruct (counter_of _ cs []) as [types|e'|] eqn:Htypes; simpl; [| |done].
      + destruct (py_sorted_reverse severity_key l) as [ranked|e'|] eqn:Hs;
          simpl; try done.
        intros [= <-]. apply py_sorted_reverse_Raise in Hs. auto.
      + intros [= <-].
        apply counter_of_Raise in Htypes as [[-> Hex] | [-> | (c & Hc & Hget)]]; auto.
        unfold dict_getitem in Hget.
        destruct (c !! "offense_type"); simplify_eq. auto.
    - intros [= <-]. left. eauto. }
  split; [split|].
  - by intros [[_ Hex]|[?|?]]%Herr.
  - intros (c & Hc & Hnone). unfold generate_report.
    destruct (offensive_only_cases cs) as [[Hall _]|[_ ->]]; [|done].
    rewrite Forall_forall in Hall. destruct (Hall c Hc) as [v Hv]. congruence.
  - intros e [[-> _] | [-> | ->]]%Herr; auto.
Qed.

(** ** The run, step by step *)

(** [main] as the sequence of its steps: each can end the run with what it
    raises; the steps after the report are [finish]. *)
Lemma run_unfold env o :
  run env o =
  if String.eqb (dirname (output_file o)) "" then (Raise OSError, [])
  else
    match load_result env (input_file o) with
    | Ok comments =>
        match py_len comments with
        | Ok n =>
            match py_iter comments with
            | Ok items =>
                match annotate_all env items (prologue o n) with
                | (Ok annotated, t1) =>
                    match generate_report annotated with
                    | Ok r =>
                        if filter_offensive o
                        then finish env o r (JArr (JObj <$> filter offensive annotated))
                               (filter offensive annotated)
                               (offensive_path (output_file o)) t1
                        else finish env o r (comments_after comments annotated)
                               annotated (output_file o) t1
                    | Raise e => (Raise e, t1)
                    | Unmodelled => (Unmodelled, t1)
                    end
                | (Raise e, t1) => (Raise e, t1)
                | (Unmodelled, t1) => (Unmodelled, t1)
                end
            | Raise e => (Raise e, prologue o n)
            | Unmodelled => (Unmodelled, prologue o n)
            end
        | Raise e => (Raise e, loading o)
        | Unmodelled => (Unmodelled, loading o)
        end
    | Raise e => (Raise e, loading o)
    | Unmodelled => (Unmodelled, loading o)
    end.
Proof.
  unfold run, main, makedirs. rewrite bind_run.
  destruct (String.eqb (dirname (output_file o)) ""); [done|].
  unfold emit at 1. rewrite bind_print, bind_run, load_comments_run.
  destruct (load_result env (input_file o)) as [comments|e|]; [|done..].
  rewrite bind_lift. destruct (py_len comments) as [n|e|]; [|done..].
  rewrite !bind_print, bind_lift.
  destruct (py_iter comments) as [items|e|]; [|done..].
  rewrite bind_run. change (_ ++ [Printed [FText nl; FText "Analyzing comments..."]])
    with (prologue o n).
  destruct (annotate_all env items (prologue o n)) as [[annotated|e|] t1];
    [|done..].
  rewrite bind_lift.
  destruct (generate_report annotated) as [r|e|] eqn:Hr; [|done..].
  rewrite bind_run. destruct (filter_offensive o).
  - rewrite bind_lift, (generate_report_offensive_only _ _ Hr). done.
  - done.
Qed.

(** ** What is sent to the service *)

Lemma asks_nothing_ret {A} (a : A) : asks_nothing (mret a).
Proof. by intros t. Qed.

Lemma asks_nothing_lift {A} (o : outcome A) : asks_nothing (lift o).
Proof. by intros t. Qed.

Lemma asks_nothing_emit e :
  (∀ text, e ≠ Requested text) → asks_nothing (emit e).
Proof.
  intros He t. unfold emit. simpl. rewrite requests_app.
  destruct e; simpl; try apply app_nil_r. by destruct (He comment_text).
Qed.

Lemma asks_nothing_print line : asks_nothing (print line).
Proof. by apply asks_nothing_emit. Qed.

Lemma asks_nothing_bind {A B} (m : M A) (f : A → M B) :
  asks_nothing m → (∀ a, asks_nothing (f a)) → asks_nothing (m ≫= f).
Proof.
  intros Hm Hf t. rewrite bind_run. specialize (Hm t).
  destruct (m t) as [[a|e|] t']; simpl in *; [|done..].
  by rewrite Hf.
Qed.

Create HintDb mute.
#[local] Hint Resolve asks_nothing_ret asks_nothing_lift asks_nothing_print
  asks_nothing_bind : mute.

Lemma asks_nothing_listing idx comments : asks_nothing (print_listing idx comments).
Proof.
  revert idx. induction comments as [|c cs IH]; intros idx; simpl;
    auto 20 with mute.
Qed.

Lemma asks_nothing_breakdown types : asks_nothing (print_breakdown types).
Proof. induction types as [|[k n] types IH]; simpl; auto 10 with mute. Qed.

Lemma asks_nothing_summary r out : asks_nothing (print_summary r out).
Proof.
  unfold print_summary.
  repeat (apply asks_nothing_bind; [|intros ?]);
    try destruct (all_offensive r); try destruct (most_offensive r);
    auto 10 using asks_nothing_listing, asks_nothing_breakdown with mute.
Qed.

Lemma asks_nothing_charts o r records out :
  asks_nothing (create_visualizations o r records out).
Proof.
  unfold create_visualizations, plot_offense_distribution,
    plot_severity_distribution, write_html.
  destruct (create_plots o), (offense_types r);
    auto 20 using asks_nothing_emit with mute.
Qed.

Lemma asks_nothing_export env v out : asks_nothing (export_to_json env v out).
Proof.
  intros t. rewrite export_to_json_run.
  destruct (can_create env (made_dirs t) out); simpl; [|done].
  rewrite requests_app. apply app_nil_r.
Qed.

Lemma asks_nothing_finish env o r exported records out :
  asks_nothing (finish env o r exported records out).
Proof.
  unfold finish.
  auto 10 using asks_nothing_export, asks_nothing_charts, asks_nothing_summary
    with mute.
Qed.

(** Whatever becomes of it, [analyze_comment] sends one request, the text
    it is given. *)
Lemma analyze_comment_requests env text t :
  requests (analyze_comment env text t).2 = requests t ++ [text].
Proof.
  unfold analyze_comment, try_except, chat_completion_create.
  rewrite !bind_run.
  destruct (chat_completion env _ text) as [content|e|].
  - rewrite bind_run. unfold lift.
    destruct (json_loads env content) as [v|e|]; simpl;
      rewrite ?requests_app; simpl; by rewrite ?app_nil_r.
  - rewrite bind_run. simpl. rewrite !requests_app. simpl. by rewrite app_nil_r.
  - simpl. by rewrite requests_app.
Qed.

(** One pass of the loop body sends the text of its comment; on a comment
    without a text it stops before anything is sent. *)
Lemma annotate_requests env comment t :
  match comment_text_of comment with
  | Some text => requests (annotate env comment t).2 = requests t ++ [text]
  | None => ∃ e, annotate env comment t = (Raise e, t)
  end.
Proof.
  destruct comment as [| | | | | |c]; simpl; eauto.
  rewrite bind_lift.
  destruct (c !! "comment_text") as [text|] eqn:Htext;
    unfold dict_getitem at 1; rewrite Htext; [|eauto].
  rewrite bind_lift. unfold dict_getitem. rewrite lookup_insert_ne by done.
  rewrite Htext, bind_run.
  pose proof (analyze_comment_requests env text t) as Hreq.
  destruct (analyze_comment env text t) as [[analysis|e|] t1]; [|done..].
  unfold lift. by destruct (dict_update _ analysis).
Qed.

(** The loop sends at most one request per comment, in the order of the
    comments, each the text of its comment, also when it does not
    complete. *)
Lemma annotate_all_requests env comments t :
  ∃ texts, requests (annotate_all env comments t).2 = requests t ++ texts ∧
           (Some <$> texts) `prefix_of` (comment_text_of <$> comments).
Proof.
  revert t. induction comments as [|comment rest IH]; intros t.
  - exists []. simpl. by rewrite app_nil_r.
  - cbn [annotate_all]. rewrite bind_run, fmap_cons.
    pose proof (annotate_requests env comment t) as Hreq.
    destruct (comment_text_of comment) as [text|].
    + destruct (annotate env comment t) as [[c'|e|] t1]; simpl in Hreq;
        [|exists [text]; split; [done|apply prefix_cons, prefix_nil]..].
      rewrite bind_run. destruct (IH t1) as (texts & Hrest & Hpre).
      exists (text :: texts). split; [|by apply prefix_cons].
      destruct (annotate_all env rest t1) as [[l|e|] t2]; simpl in *;
        by rewrite Hrest, Hreq, <- app_assoc.
    + destruct Hreq as [e ->]. exists []. simpl. rewrite app_nil_r.
      split; [done|apply prefix_nil].
Qed.

(** X7.  No request is sent twice and none out of turn: in any run on a
    sequence of comments, the requests are the texts of the first comments
    of the input, one each, in input order; and if the run has written
    anything, they are the texts of all the comments. *)
Theorem request_discipline (env : environment) (o : options) (l : list json) :
  load_result env (input_file o) = Ok (JArr l) →
  (Some <$> requests (run env o).2) `prefix_of` (comment_text_of <$> l) ∧
  (written (run env o).2 ≠ [] →
   Some <$> requests (run env o).2 = comment_text_of <$> l).
Proof.
  intros Hload. rewrite run_unfold, Hload. cbn [py_len py_iter].
  destruct (String.eqb (dirname (output_file o)) "");
    [split; [apply prefix_nil|done]|].
  destruct (annotate_all_requests env l (prologue o (length l)))
    as (texts & Hreq & Hpre).
  pose proof (writes_nothing_annotate_all env l (prologue o (length l))) as Hquiet.
  change (requests (prologue o (length l)) ++ texts) with texts in Hreq.
  change (written (prologue o (length l))) with (@nil (string * file_content))
    in Hquiet.
  destruct (annotate_all env l (prologue o (length l)))
    as [[annotated|e|] t1] eqn:Hann; cbn [snd] in *;
    [|by rewrite Hreq, Hquiet..].
  destruct (generate_report annotated) as [r|e|]; cbn [snd];
    [|by rewrite Hreq, Hquiet..].
  apply annotate_all_spec in Hann as (_ & texts' & Hreq' & Htexts).
  change (requests (prologue o (length l)) ++ texts') with texts' in Hreq'.
  destruct (filter_offensive o); rewrite asks_nothing_finish;
    (split; [by rewrite Hreq|intros _; by rewrite Hreq']).
Qed.

Lemma request_discipline_witness :
  (Some <$> requests (run (sample_env two_comments_text service_toxic)
                          default_options).2)
    `prefix_of` (comment_text_of <$> [JObj hello_comment; JObj rude_comment]) ∧
  (written (run (sample_env two_comments_text service_toxic)
                default_options).2 ≠ [] →
   Some <$> requests (run (sample_env two_comments_text service_toxic)
                          default_options).2
   = comment_text_of <$> [JObj hello_comment; JObj rude_comment]).
Proof.
  apply (request_discipline (sample_env two_comments_text service_toxic)
           default_options [JObj hello_comment; JObj rude_comment]).
  vm_cast_no_check (eq_refl (Ok (JArr [JObj hello_comment; JObj rude_comment]))).
Defined.

(** ** Paths *)

Lemma rfind_bounds a s : -1 ≤ rfind a s < Z.of_nat (String.length s).
Proof.
  induction s as [|b s IH]; simpl; [lia|].
  destruct (0 <=? rfind a s); [lia|]. destruct (Ascii.eqb a b); lia.
Qed.

Lemma rfind_free a s : rfind a s = -1 ↔ free_of a s.
Proof.
  unfold free_of. induction s as [|b s IH]; simpl.
  - split; [constructor|done].
  - pose proof (rfind_bounds a s). rewrite Forall_cons.
    destruct (0 <=? rfind a s) eqn:H0.
    + apply Z.leb_le in H0. split; [lia|]. intros [_ Hs]. apply IH in Hs. lia.
    + apply Z.leb_gt in H0. destruct (Ascii.eqb_spec a b) as [->|Hab].
      * split; [lia|]. by intros [? _].
      * split; [|lia]. intros _. split; [congruence|]. apply IH. lia.
Qed.

Lemma rfind_get a s :
  0 ≤ rfind a s → String.get (Z.to_nat (rfind a s)) s = Some a.
Proof.
  induction s as [|b s IH]; simpl; [lia|].
  destruct (0 <=? rfind a s) eqn:H0.
  - apply Z.leb_le in H0. intros _. rewrite Z2Nat.inj_add by lia.
    rewrite Nat.add_1_r. simpl. by apply IH.
  - destruct (Ascii.eqb_spec a b) as [->|]; [done|lia].
Qed.

Lemma substring_nonempty n s :
  (0 < n ≤ String.length s)%nat → String.substring 0 n s ≠ ""%string.
Proof. destruct s, n; simpl; try lia; done. Qed.

Lemma substring_all s : String.substring 0 (String.length s) s = s.
Proof. induction s as [|b s IH]; simpl; congruence. Qed.

Lemma append_cons b s1 s2 :
  (String b s1 ++ s2)%string = String b (s1 ++ s2)%string.
Proof. done. Qed.

Lemma substring_split n s :
  (n ≤ String.length s)%nat →
  (String.substring 0 n s ++ String.substring n (String.length s - n) s)%string = s.
Proof.
  revert n. induction s as [|b s IH]; intros [|n] Hn; simpl in *; try lia;
    try done.
  - by rewrite substring_all.
  - rewrite append_cons. f_equal. apply IH. lia.
Qed.

Lemma substring_head n s a :
  String.get n s = Some a →
  ∃ rest, String.substring n (String.length s - n) s = String a rest.
Proof.
  revert n. induction s as [|b s IH]; intros [|n]; simpl; try done.
  - intros [= ->]. eauto.
  - apply IH.
Qed.

(** [os.path.dirname] gives the empty path exactly for a path without a
    slash. *)
Lemma dirname_empty p : dirname p = ""%string ↔ free_of "/" p.
Proof.
  rewrite <- rfind_free. unfold dirname. pose proof (rfind_bounds "/" p).
  split; [|intros ->; change (Z.to_nat (-1 + 1)) with 0%nat; by destruct p].
  intros Hd. destruct (decide (rfind "/" p = -1)) as [|Hne]; [done|].
  exfalso.
  assert (String.substring 0 (Z.to_nat (rfind "/" p + 1)) p ≠ ""%string)
    by (apply substring_nonempty; lia).
  by destruct (String.eqb_spec
                 (rstrip_slash (String.substring 0 (Z.to_nat (rfind "/" p + 1)) p)) "").
Qed.

(** [os.path.splitext] splits the path in two, and the extension is empty
    or starts with a dot. *)
Lemma splitext_spec p :
  ((splitext p).1 ++ (splitext p).2)%string = p ∧
  ((splitext p).2 = ""%string ∨ ∃ rest, (splitext p).2 = String "." rest).
Proof.
  assert ((p ++ "")%string = p) as Hnil.
  { induction p as [|b p IH]; [done|]. rewrite append_cons. congruence. }
  unfold splitext. pose proof (rfind_bounds "." p) as Hb.
  pose proof (rfind_bounds "/" p) as Hs.
  destruct (rfind "/" p <? rfind "." p) eqn:Hlt; [|by auto].
  apply Z.ltb_lt in Hlt.
  destruct (existsb _ _); [|by auto]. cbn [fst snd]. split.
  - apply substring_split. lia.
  - right. apply substring_head, rfind_get. lia.
Qed.

Lemma chart_path_not_export out rest f :
  chart_path out (String "_" rest) f ≠ out.
Proof.
  destruct (splitext_spec out) as [Hout Hext]. unfold chart_path. intros Heq.
  rewrite <- Hout in Heq at 2. apply String.app_inj in Heq.
  destruct Hext as [H|[r H]]; rewrite H in Heq; discriminate.
Qed.

Lemma chart_paths_differ out f :
  chart_path out "_offense_distribution." f
  ≠ chart_path out "_severity_distribution." f.
Proof. unfold chart_path. intros Heq%String.app_inj. discriminate. Qed.

(** X8.  An output file without a directory part: [os.makedirs] is given
    the empty path, and the run ends there, before it has read, sent or
    written anything. *)
Theorem output_file_needs_directory (env : environment) (o : options) :
  free_of "/" (output_file o) → run env o = (Raise OSError, []).
Proof. intros Hd%dirname_empty. by rewrite run_unfold, Hd. Qed.

Lemma output_file_needs_directory_witness :
  run (sample_env two_comments_text service_toxic) bare_output_options
  = (Raise OSError, []).
Proof.
  apply (output_file_needs_directory
           (sample_env two_comments_text service_toxic) bare_output_options).
  unfold free_of. simpl. repeat (constructor; [discriminate|]). constructor.
Defined.

(** X9.  No run writes a file twice: the export and the two charts go to
    three different paths, also when the output path has no extension or
    has the extension of the charts. *)
Theorem no_file_written_twice (env : environment) (o : options) :
  NoDup (written (run env o).2).*1.
Proof.
  destruct (run env o) as [res t] eqn:Hrun. cbn [snd].
  destruct (run_written _ _ _ _ Hrun) as [[-> _]|
    (comments & items & annotated & t0 & t1 & r & charts & pie &
     _ & _ & _ & _ & _ & Hw & Hpre & _)]; [constructor|].
  cbv zeta in Hw. rewrite Hw.
  set (out := if filter_offensive o then offensive_path (output_file o)
              else output_file o) in *.
  assert (NoDup [out; chart_path out "_offense_distribution." (plot_fmt o);
                 chart_path out "_severity_distribution." (plot_fmt o)]) as Hall.
  { pose proof (chart_path_not_export out "offense_distribution." (plot_fmt o)).
    pose proof (chart_path_not_export out "severity_distribution." (plot_fmt o)).
    pose proof (chart_paths_differ out (plot_fmt o)).
    repeat apply NoDup_cons_2; [..|apply NoDup_nil_2];
      rewrite ?not_elem_of_cons; split_and?; try done; apply not_elem_of_nil. }
  destruct Hpre as [rest Hrest].
  apply (f_equal (fmap fst)) in Hrest. rewrite fmap_app in Hrest.
  simpl in Hrest. rewrite fmap_cons. cbn [fst].
  rewrite Hrest in Hall.
  change (NoDup (([out] ++ charts.*1) ++ rest.*1)) in Hall.
  by apply NoDup_app in Hall as [Hall _].
Qed.

(** ** The loop and the responses *)

(** A response that parses is what [analyze_comment] returns. *)
Lemma analyze_comment_parsed env text t content v :
  chat_completion env (length (requests t)) text = Ok content →
  json_loads env content = Ok v →
  analyze_comment env text t = (Ok v, t ++ [Requested text]).
Proof.
  intros Hc Hv. unfold analyze_comment, try_except, chat_completion_create.
  rewrite !bind_run, Hc, bind_run. unfold lift. by rewrite Hv.
Qed.

(** What [analyze_comment] returns, by what became of the call and of the
    parse. *)
Lemma analyze_comment_value env text t :
  (analyze_comment env text t).1 =
  match chat_completion env (length (requests t)) text with
  | Ok content =>
      match json_loads env content with
      | Ok v => Ok v
      | Raise _ => Ok (JObj error_analysis)
      | Unmodelled => Unmodelled
      end
  | Raise _ => Ok (JObj error_analysis)
  | Unmodelled => Unmodelled
  end.
Proof.
  unfold analyze_comment, try_except, chat_completion_create.
  rewrite !bind_run.
  destruct (chat_completion env _ text) as [content|e|];
    [|by rewrite bind_run|done].
  rewrite bind_run. unfold lift.
  destruct (json_loads env content); [done|by rewrite bind_run|done].
Qed.

(** [comment.update(v)], when it accepts [v], puts the fields of [v] over
    those of the comment. *)
Lemma dict_update_fields (d : dict) v d' :
  dict_update d v = Ok d' → d' = reply_fields v ∪ d.
Proof.
  destruct v as [| | | |s|[|]|m]; simpl; try discriminate.
  - destruct (String.eqb s ""); [|discriminate].
    intros [= <-]. by rewrite (left_id_L ∅ (∪)).
  - intros [= <-]. by rewrite (left_id_L ∅ (∪)).
  - by intros [= <-].
Qed.

(** X10.  [comment.update(analysis)] lets the response win.  The fields
    [m] of the analysis are those of the parsed response when the call
    returned and its content parsed (none when that is an empty string or
    list), and those of the default record when the call or the parse
    raised.  In the record the loop makes of a comment, a field has the
    value [m] gives it, if it gives one; otherwise [contains_profanity] is
    the result of the word-list check and every other field is as it was in
    the input.  So the response can replace [comment_text], [username] and
    [contains_profanity]. *)
Theorem response_fields_win (env : environment) (c : dict) (t : trace)
    (c' : dict) (t' : trace) :
  annotate env (JObj c) t = (Ok c', t') →
  ∃ text m,
    c !! "comment_text" = Some text ∧
    match chat_completion env (length (requests t)) text with
    | Ok content =>
        match json_loads env content with
        | Ok v => m = reply_fields v
        | Raise _ => m = error_analysis
        | Unmodelled => False
        end
    | Raise _ => m = error_analysis
    | Unmodelled => False
    end ∧
    ∀ k : string,
      c' !! k =
      match m !! k with
      | Some x => Some x
      | None => if decide (k = "contains_profanity")
                then Some (JBool (contains_profanity env text))
                else c !! k
      end.
Proof.
  intros (c0 & text & analysis & [= <-] & Htext & Ha & Hu)%annotate_Ok.
  apply (f_equal fst) in Ha. cbn [fst] in Ha. rewrite analyze_comment_value in Ha.
  apply dict_update_fields in Hu.
  set (flagged := <["contains_profanity" := JBool (contains_profanity env text)]> c)
    in *.
  assert (∀ m, c' = m ∪ flagged →
            ∀ k : string,
              c' !! k =
              match m !! k with
              | Some x => Some x
              | None => if decide (k = "contains_profanity")
                        then Some (JBool (contains_profanity env text))
                        else c !! k
              end) as Hfields.
  { intros m -> k. rewrite lookup_union. destruct (m !! k) as [x|] eqn:Hk.
    - by destruct (flagged !! k).
    - rewrite (left_id_L None (∪)). unfold flagged.
      destruct (decide (k = "contains_profanity")) as [->|Hne].
      + by rewrite lookup_insert.
      + by rewrite lookup_insert_ne. }
  exists text.
  destruct (chat_completion env (length (requests t)) text) as [content|e|];
    [|exists error_analysis; simplify_eq; by auto|discriminate].
  destruct (json_loads env content) as [v|e|]; [| |discriminate].
  - exists (reply_fields v). simplify_eq. auto.
  - exists error_analysis. simplify_eq. auto.
Qed.

Lemma response_fields_win_witness :
  ∃ text m,
    hello_comment !! "comment_text" = Some text ∧
    match chat_completion (sample_env' two_comments_text service_rewriting)
                          (length (requests [])) text with
    | Ok content =>
        match json_loads (sample_env' two_comments_text service_rewriting)
                         content with
        | Ok v => m = reply_fields v
        | Raise _ => m = error_analysis
        | Unmodelled => False
        end
    | Raise _ => m = error_analysis
    | Unmodelled => False
    end ∧
    ∀ k : string,
      sample_rewritten.1 !! k =
      match m !! k with
      | Some x => Some x
      | None =>
          if decide (k = "contains_profanity")
          then Some (JBool (contains_profanity
                              (sample_env' two_comments_text service_rewriting) text))
          else hello_comment !! k
      end.
Proof.
  apply (response_fields_win (sample_env' two_comments_text service_rewriting)
           hello_comment [] sample_rewritten.1 sample_rewritten.2).
  vm_cast_no_check (eq_refl (Ok sample_rewritten.1, sample_rewritten.2)).
Defined.

(** When the loop completes, every response that parsed was one
    [comment.update] accepts. *)
Lemma annotate_all_accepts env l t annotated t' i text content v :
  annotate_all env l t = (Ok annotated, t') →
  l !! i ≫= comment_text_of = Some text →
  chat_completion env (length (requests t) + i) text = Ok content →
  json_loads env content = Ok v →
  ¬ not_a_mapping v.
Proof.
  revert t annotated i. induction l as [|comment rest IH];
    intros t annotated i Hann Hi Hc Hv; [done|].
  apply annotate_all_Ok in Hann. destruct annotated as [|c' annotated]; [done|].
  destruct Hann as (t1 & Hone & Hrest).
  apply annotate_Ok in Hone as (c & text0 & analysis & -> & Htext & Ha & Hu).
  destruct i as [|i]; simpl in Hi.
  - rewrite Htext in Hi. simplify_eq. rewrite Nat.add_0_r in Hc.
    rewrite (analyze_comment_parsed _ _ _ _ _ Hc Hv) in Ha.
    assert (analysis = v) as -> by congruence.
    destruct v as [| | | |s|[|]|m]; simpl in *; try done; try (by intros []).
    destruct (String.eqb_spec s ""); [|done]. by intros ?.
  - apply analyze_comment_Ok in Ha as [Hreq _].
    apply (IH _ _ i Hrest Hi); [|done].
    rewrite Hreq, length_app. simpl.
    by replace (length (requests t) + 1 + i)%nat
      with (length (requests t) + S i)%nat by lia.
Qed.

(** X11.  The [try] of [analyze_comment] does not cover
    [comment.update]: when the response to one of the comments parses to
    a number, a boolean, [null] or a non-empty string, the run does not
    complete, and exports nothing. *)
Theorem reply_must_be_a_mapping (env : environment) (o : options)
    (l : list json) (i : nat) (text : json) (content : string) (v : json) :
  load_result env (input_file o) = Ok (JArr l) →
  l !! i ≫= comment_text_of = Some text →
  chat_completion env i text = Ok content →
  json_loads env content = Ok v →
  not_a_mapping v →
  written (run env o).2 = [] ∧ (run env o).1 ≠ Ok ().
Proof.
  intros Hload Hi Hc Hv Hbad. rewrite run_unfold, Hload. cbn [py_len py_iter].
  destruct (String.eqb _ ""); [done|].
  pose proof (writes_nothing_annotate_all env l (prologue o (length l))) as Hquiet.
  destruct (annotate_all env l _) as [[annotated|e|] t1] eqn:Hann;
    cbn [snd] in *; [|done..].
  by destruct (annotate_all_accepts _ _ _ _ _ i _ _ _ Hann Hi Hc Hv).
Qed.

Lemma reply_must_be_a_mapping_witness :
  written (run (sample_env' two_comments_text service_number) default_options).2 = [] ∧
  (run (sample_env' two_comments_text service_number) default_options).1 ≠ Ok ().
Proof.
  apply (reply_must_be_a_mapping
           (sample_env' two_comments_text service_number) default_options
           [JObj hello_comment; JObj rude_comment] 0 (JStr "hello")
           "42" (JInt 42)).
  - vm_cast_no_check (eq_refl (Ok (JArr [JObj hello_comment; JObj rude_comment]))).
  - reflexivity.
  - reflexivity.
  - reflexivity.
  - exact I.
Defined.

(** X12.  A comment that is no object, or has no [comment_text], among the
    input: the run does not complete and exports nothing, whatever became
    of the comments before it. *)
Theorem malformed_comment_exports_nothing (env : environment) (o : options)
    (l : list json) :
  load_result env (input_file o) = Ok (JArr l) →
  Exists (λ comment, comment_text_of comment = None) l →
  written (run env o).2 = [] ∧ (run env o).1 ≠ Ok ().
Proof.
  intros Hload Hbad. rewrite run_unfold, Hload. cbn [py_len py_iter].
  destruct (String.eqb _ ""); [done|].
  pose proof (writes_nothing_annotate_all env l (prologue o (length l))) as Hquiet.
  destruct (annotate_all env l _) as [[annotated|e|] t1] eqn:Hann;
    cbn [snd] in *; [|done..].
  exfalso. apply annotate_all_spec in Hann as (_ & texts & _ & Htexts).
  apply Exists_exists in Hbad as (comment & Hin & Hnone).
  assert (None ∈ comment_text_of <$> l) as Hin'
    by (rewrite <- Hnone; by apply list_elem_of_fmap_2).
  rewrite <- Htexts in Hin'. by apply list_elem_of_fmap_1 in Hin' as (? & ? & _).
Qed.

Lemma malformed_comment_exports_nothing_witness :
  written (run (sample_env' nameless_text service_toxic) default_options).2 = [] ∧
  (run (sample_env' nameless_text service_toxic) default_options).1 ≠ Ok ().
Proof.
  apply (malformed_comment_exports_nothing
           (sample_env' nameless_text service_toxic) default_options
           [JObj {[ "username" := JStr "a" ]}]).
  - vm_cast_no_check (eq_refl (Ok (JArr [JObj ({[ "username" := JStr "a" ]} : dict)]))).
  - apply Exists_cons_hd. reflexivity.
Defined.



(** ** A run without classifications *)

Lemma analyze_comment_failed env text t :
  (∃ e, chat_completion env (length (requests t)) text = Raise e) ∨
  (∃ content e, chat_completion env (length (requests t)) text = Ok content ∧
                json_loads env content = Raise e) →
  (analyze_comment env text t).1 = Ok (JObj error_analysis).
Proof.
  unfold analyze_comment, try_except, chat_completion_create.
  rewrite !bind_run. intros [[e He]|(content & e & Hc & He)].
  - by rewrite He.
  - rewrite Hc, bind_run. unfold lift. by rewrite He.
Qed.

Lemma annotate_all_failed env l t :
  classification_fails env → Forall annotatable l →
  ∃ annotated t',
    annotate_all env l t = (Ok annotated, t') ∧
    JObj <$> annotated = mark_failed env <$> l ∧
    Forall (λ c : dict, c !! "is_offensive" = Some (JBool false)) annotated.
Proof.
  intros Hfails Hl. revert t.
  induction Hl as [|comment rest [text Htext] _ IH]; intros t.
  - exists [], t. by split_and!.
  - destruct comment as [| | | | | |c]; try done. simpl in Htext.
    cbn [annotate_all]. rewrite bind_run. unfold annotate.
    rewrite bind_lift. unfold dict_getitem at 1. rewrite Htext, bind_lift.
    unfold dict_getitem. rewrite lookup_insert_ne by done.
    rewrite Htext, bind_run.
    pose proof (analyze_comment_failed env text t (Hfails _ _)) as Ha.
    destruct (analyze_comment env text t) as [analysis t1]. simpl in Ha.
    subst analysis. cbn [lift dict_update]. rewrite bind_run.
    destruct (IH t1) as (annotated & t' & -> & Hrecords & Hnone).
    eexists _, t'. split_and!; [done| |].
    + rewrite !fmap_cons, Hrecords. simpl. by rewrite Htext.
    + constructor; [|done]. by apply lookup_union_Some_l.
Qed.

Lemma generate_report_none_offensive (cs : list dict) :
  Forall (λ c : dict, c !! "is_offensive" = Some (JBool false)) cs →
  filter offensive cs = [] ∧
  generate_report cs =
    Ok {| total_comments := length cs; offensive_comments := 0;
          offense_types := []; most_offensive := []; all_offensive := [] |}.
Proof.
  intros Hcs.
  assert (offensive_only cs = Ok [] ∧
          counter_of (λ c, dict_getitem c "offense_type") cs [] = Ok [])
    as [Hoffs Htypes].
  { induction Hcs as [|c cs Hc _ [IH1 IH2]]; [done|]. simpl.
    unfold is_offensive, dict_getitem. rewrite Hc. simpl. rewrite IH1.
    split; [done|exact IH2]. }
  split; [symmetry; by apply offensive_only_filter|].
  unfold generate_report. rewrite Hoffs. simpl. by rewrite Htypes.
Qed.

Lemma made_dirs_app t1 t2 : made_dirs (t1 ++ t2) = made_dirs t1 ++ made_dirs t2.
Proof. apply omap_app. Qed.

Lemma makes_no_dir_ret {A} (a : A) : makes_no_dir (mret a).
Proof. by intros t. Qed.

Lemma makes_no_dir_lift {A} (o : outcome A) : makes_no_dir (lift o).
Proof. by intros t. Qed.

Lemma makes_no_dir_print line : makes_no_dir (print line).
Proof. intros t. unfold print, emit. simpl. by rewrite made_dirs_app, app_nil_r. Qed.

Lemma makes_no_dir_bind {A B} (m : M A) (f : A → M B) :
  makes_no_dir m → (∀ a, makes_no_dir (f a)) → makes_no_dir (m ≫= f).
Proof.
  intros Hm Hf t. rewrite bind_run. specialize (Hm t).
  destruct (m t) as [[a|e|] t']; simpl in *; [|done..].
  by rewrite Hf.
Qed.

Lemma makes_no_dir_try {A} (body : M A) (handler : exn → M A) :
  makes_no_dir body → (∀ e, makes_no_dir (handler e)) →
  makes_no_dir (try_except body handler).
Proof.
  intros Hb Hh t. unfold try_except. specialize (Hb t).
  destruct (body t) as [[a|e|] t']; simpl in *; [done| |done].
  by rewrite Hh.
Qed.

Lemma makes_no_dir_chat env text : makes_no_dir (chat_completion_create env text).
Proof.
  intros t. unfold chat_completion_create. simpl.
  by rewrite made_dirs_app, app_nil_r.
Qed.

Create HintDb dirs.
#[local] Hint Resolve makes_no_dir_ret makes_no_dir_lift makes_no_dir_print
  makes_no_dir_bind makes_no_dir_try makes_no_dir_chat : dirs.

Lemma makes_no_dir_annotate env comment : makes_no_dir (annotate env comment).
Proof.
  unfold annotate, analyze_comment, raise. destruct comment; auto 20 with dirs.
Qed.

(** The loop makes no directory: when it is over, the directory of the
    output file is the one the run has made. *)
Lemma makes_no_dir_annotate_all env comments :
  makes_no_dir (annotate_all env comments).
Proof.
  induction comments as [|c cs IH]; simpl;
    auto 10 using makes_no_dir_annotate with dirs.
Qed.

Lemma finish_empty env o n exported records out t :
  can_create env (made_dirs t) out = true →
  (finish env o {| total_comments := n; offensive_comments := 0;
                   offense_types := []; most_offensive := [];
                   all_offensive := [] |}
          exported records out t).1 = Ok () ∧
  written (finish env o {| total_comments := n; offensive_comments := 0;
                           offense_types := []; most_offensive := [];
                           all_offensive := [] |}
                  exported records out t).2
  = written t ++ [(out, JsonText exported)].
Proof.
  intros Hcreate. unfold finish.
  rewrite bind_run, export_to_json_run, Hcreate.
  unfold create_visualizations, print_summary.
  destruct (create_plots o); simpl; rewrite !written_app; simpl;
    by rewrite !app_nil_r.
Qed.



(** The filtered export goes to another directory when [.json] occurs in
    the directory of the output file, and the run has not made that one:
    with the output file [runs.json/analyzed.json], [open] raises, and the
    run ends with nothing written. *)
Lemma filtered_export_without_directory :
  offensive_path (output_file nested_output_options)
    = "runs_offensive.json/analyzed_offensive.json"%string ∧
  (run (sample_env two_comments_text service_down) nested_output_options).1
    = Raise OSError ∧
  written (run (sample_env two_comments_text service_down)
               nested_output_options).2 = [].
Proof. split_and!; by_evaluation. Qed.

(** ** The charts *)

(** The report has an offense type exactly when a record is offensive. *)
Lemma offense_types_empty (cs : list dict) (r : report) :
  generate_report cs = Ok r →
  offense_types r = [] ↔ filter offensive cs = [].
Proof.
  intros (_ & _ & Htypes & _)%generate_report_Ok.
  destruct (counter_of_correct _ _ _ _ Htypes) as (_ & Hpos & Hsum & _).
  specialize (Hpos (Forall_nil_2 _)). simpl in Hsum. split.
  - intros Hnil. rewrite Hnil in Hsum. simpl in Hsum.
    by apply nil_length_inv.
  - intros Hnil. rewrite Hnil in Hsum. simpl in Hsum.
    destruct (offense_types r) as [|[k n] types]; [done|].
    apply Forall_cons in Hpos as [Hn _]. simpl in *. lia.
Qed.

(** When the loaded value is not an array, a loop that completes had
    nothing to go through. *)
Lemma annotate_all_of_non_array env comments items t annotated t' :
  py_iter comments = Ok items →
  annotate_all env items t = (Ok annotated, t') →
  annotated = [] ∨ ∃ l, comments = JArr l.
Proof.
  intros Hiter Hann.
  destruct comments as [| | | |s|l|m]; simpl in Hiter; simplify_eq; eauto; left.
  - destruct (characters s); [by injection Hann|].
    rewrite fmap_cons in Hann. cbn [annotate_all] in Hann.
    by rewrite bind_run in Hann.
  - destruct (map_to_list m).*1; [by injection Hann|].
    rewrite fmap_cons in Hann. cbn [annotate_all] in Hann.
    by rewrite bind_run in Hann.
Qed.

(** X15.  The charts are made exactly when [--create-plots] is on and some
    exported record is offensive; they are named after the path the
    export went to, which with [--filter-offensive] is the renamed one. *)
Theorem charts_when_offensive (env : environment) (o : options)
    (path : string) (v : json) (charts : list (string * file_content)) :
  written (run env o).2 = (path, JsonText v) :: charts →
  path = (if filter_offensive o then offensive_path (output_file o)
          else output_file o) ∧
  (charts ≠ [] ↔
   create_plots o = true ∧ ∃ c : dict, JObj c ∈ records_of v ∧ offensive c) ∧
  charts.*1 `prefix_of`
    [ chart_path path "_offense_distribution." (plot_fmt o);
      chart_path path "_severity_distribution." (plot_fmt o) ].
Proof.
  destruct (run env o) as [res t] eqn:Hrun. cbn [snd]. intros Hwritten.
  destruct (run_written _ _ _ _ Hrun) as [[Hnone _]|
    (comments & items & annotated & t0 & t1 & r & charts' & pie &
     _ & Hiter & _ & Hann & Hr & Hw & Hpre & Hcharts)]; [congruence|].
  cbv zeta in Hw. rewrite Hwritten in Hw.
  injection Hw as Hpath Hv <-.
  set (out := if filter_offensive o then offensive_path (output_file o)
              else output_file o) in *.
  subst path. split; [done|]. split.
  - rewrite Hcharts, (offense_types_empty _ _ Hr).
    assert (filter offensive annotated ≠ [] ↔
            ∃ c : dict, JObj c ∈ records_of v ∧ offensive c) as ->; [|done].
    assert (∀ cs : list dict,
              filter offensive cs ≠ [] ↔
              ∃ c : dict, JObj c ∈ JObj <$> cs ∧ offensive c) as Hsome.
    { intros cs. split.
      - destruct (filter offensive cs) as [|c offs] eqn:Hoffs; [done|].
        intros _. assert (c ∈ filter offensive cs) as Hin
          by (rewrite Hoffs; by left).
        apply list_elem_of_filter in Hin as [Hc Hin]. exists c.
        split; [by apply list_elem_of_fmap_2|done].
      - intros (c & Hin & Hc) Hnil.
        apply list_elem_of_fmap_1 in Hin as (c0 & [= <-] & Hin).
        assert (c ∈ filter offensive cs) as Hin'
          by (by apply list_elem_of_filter).
        rewrite Hnil in Hin'. by apply elem_of_nil in Hin'. }
    subst v. destruct (filter_offensive o).
    + simpl. rewrite <- (Hsome (filter offensive annotated)).
      by rewrite list_filter_filter_l.
    + destruct (annotate_all_of_non_array _ _ _ _ _ _ Hiter Hann)
        as [->|[l ->]]; [|apply Hsome].
      split; [done|]. intros (c & Hin & _).
      destruct comments; simpl in Hin; by apply elem_of_nil in Hin.
  - destruct Hpre as [rest Hrest]. exists rest.*1.
    apply (f_equal (fmap fst)) in Hrest. by rewrite fmap_app in Hrest.
Qed.

Lemma sample_export_written :
  written (run (sample_env two_comments_text service_toxic) default_options).2
  = (sample_export.1.1, JsonText sample_export.1.2) :: sample_export.2.
Proof.
  vm_cast_no_check
    (eq_refl ((sample_export.1.1, JsonText sample_export.1.2) :: sample_export.2)).
Qed.

Lemma charts_when_offensive_witness :
  sample_export.1.1 = (if filter_offensive default_options
                       then offensive_path (output_file default_options)
                       else output_file default_options) ∧
  (sample_export.2 ≠ [] ↔
   create_plots default_options = true ∧
   ∃ c : dict, JObj c ∈ records_of sample_export.1.2 ∧ offensive c) ∧
  sample_export.2.*1 `prefix_of`
    [ chart_path sample_export.1.1 "_offense_distribution."
        (plot_fmt default_options);
      chart_path sample_export.1.1 "_severity_distribution."
        (plot_fmt default_options) ].
Proof.
  exact (charts_when_offensive
           (sample_env two_comments_text service_toxic) default_options
           sample_export.1.1 sample_export.1.2 sample_export.2
           sample_export_written).
Defined.

(** ** Failures after the export *)

Lemma print_listing_Raise idx (cs : list dict) t e :
  (print_listing idx cs t).1 = Raise e →
  ∃ (c : dict) (field : string),
    c ∈ cs ∧ field ∈ listed_fields ∧ c !! field = None ∧ e = KeyError field.
Proof.
  revert idx t. induction cs as [|c cs IH]; intros idx t; [done|].
  cbn [print_listing]. unfold dict_getitem.
  assert (∀ field, field ∈ listed_fields → c !! field = None →
          ∃ (c0 : dict) (field0 : string),
            c0 ∈ c :: cs ∧ field0 ∈ listed_fields ∧ c0 !! field0 = None ∧
            KeyError field = KeyError field0) as Hhere.
  { intros field ? ?. exists c, field. split_and!; [by left|done..]. }
  rewrite bind_lift.
  destruct (c !! "username") eqn:?;
    [|intros [= <-]; apply Hhere; [|done]; unfold listed_fields;
      rewrite !elem_of_cons; tauto].
  rewrite bind_print, bind_lift.
  destruct (c !! "comment_text") eqn:?;
    [|intros [= <-]; apply Hhere; [|done]; unfold listed_fields;
      rewrite !elem_of_cons; tauto].
  rewrite bind_print, bind_lift.
  destruct (c !! "offense_type") eqn:?;
    [|intros [= <-]; apply Hhere; [|done]; unfold listed_fields;
      rewrite !elem_of_cons; tauto].
  rewrite !bind_print, bind_lift.
  destruct (c !! "explanation") eqn:?;
    [|intros [= <-]; apply Hhere; [|done]; unfold listed_fields;
      rewrite !elem_of_cons; tauto].
  rewrite bind_print. intros (c0 & field & Hin & ?)%IH.
  exists c0, field. split; [by right|done].
Qed.

Lemma print_breakdown_Ok types t : (print_breakdown types t).1 = Ok ().
Proof.
  revert t. induction types as [|[k n] types IH]; intros t; [done|].
  cbn [print_breakdown]. by rewrite bind_print.
Qed.

Lemma print_summary_Raise r out t e :
  (print_summary r out t).1 = Raise e →
  ∃ (c : dict) (field : string),
    (c ∈ all_offensive r ∨ c ∈ most_offensive r) ∧
    field ∈ listed_fields ∧ c !! field = None ∧ e = KeyError field.
Proof.
  unfold print_summary. rewrite !bind_print, bind_run.
  match goal with |- context [print_breakdown ?ts ?t0] =>
    pose proof (print_breakdown_Ok ts t0) as Hb;
    destruct (print_breakdown ts t0) as [[[]|?|] t1]; try done
  end.
  rewrite bind_run.
  assert (∀ l t0 e0,
    ((match l with
      | [] => mret ()
      | _ => print [FText nl; FText "All Offensive Comments:"];;
             print_listing 1 l
      end : M unit) t0).1 = Raise e0 →
    (print_listing 1 l (t0 ++ [Printed [FText nl; FText "All Offensive Comments:"]])).1
    = Raise e0) as Hall.
  { intros [|c l] t0 e0; [done|]. by rewrite bind_print. }
  assert (∀ l t0 e0,
    ((match l with
      | [] => mret ()
      | _ => print [FText nl; FText "Top 5 Most Severe Offensive Comments:"];;
             print_listing 1 l
      end : M unit) t0).1 = Raise e0 →
    (print_listing 1 l
       (t0 ++ [Printed [FText nl; FText "Top 5 Most Severe Offensive Comments:"]])).1
    = Raise e0) as Htop.
  { intros [|c l] t0 e0; [done|]. by rewrite bind_print. }
  match goal with |- context [match all_offensive r with _ => _ end ?t0] =>
    specialize (Hall (all_offensive r) t0);
    destruct ((match all_offensive r with
               | [] => mret ()
               | _ => print [FText nl; FText "All Offensive Comments:"];;
                      print_listing 1 (all_offensive r)
               end : M unit) t0) as [[[]|e1|] t2]
  end.
  - rewrite bind_run.
    match goal with |- context [match most_offensive r with _ => _ end ?t0] =>
      specialize (Htop (most_offensive r) t0);
      destruct ((match most_offensive r with
                 | [] => mret ()
                 | _ => print [FText nl; FText "Top 5 Most Severe Offensive Comments:"];;
                        print_listing 1 (most_offensive r)
                 end : M unit) t0) as [[[]|e1|] t3]
    end; [done| |done].
    intros [= <-].
    destruct (print_listing_Raise _ _ _ _ (Htop _ eq_refl))
      as (c & field & ? & ?). exists c, field. auto.
  - intros [= <-].
    destruct (print_listing_Raise _ _ _ _ (Hall _ eq_refl))
      as (c & field & ? & ?). exists c, field. auto.
  - done.
Qed.

Lemma create_visualizations_Raise o r records out t e :
  (create_visualizations o r records out t).1 = Raise e →
  counter_of (λ c, Ok (severity_key c)) records [] = Raise e.
Proof.
  unfold create_visualizations, plot_offense_distribution,
    plot_severity_distribution, write_html.
  destruct (create_plots o), (offense_types r); try done.
  rewrite bind_emit, bind_print, bind_run, bind_lift.
  destruct (counter_of _ records []); [unfold emit|..]; simpl;
    [done|by intros [= ->]|done].
Qed.

(** Every record the loop yields has a [comment_text]. *)
Lemma annotate_all_comment_text env l t annotated t' :
  annotate_all env l t = (Ok annotated, t') →
  Forall (λ c : dict, is_Some (c !! "comment_text")) annotated.
Proof.
  revert t annotated. induction l as [|comment rest IH]; intros t annotated Hann;
    apply annotate_all_Ok in Hann; destruct annotated as [|c' annotated];
    try done.
  destruct Hann as (t1 & Hone & Hrest). constructor; [|by eapply IH].
  apply annotate_Ok in Hone as (c & text & analysis & -> & Htext & _ & Hu).
  apply dict_update_dom in Hu. apply elem_of_dom. apply Hu.
  rewrite dom_insert. apply elem_of_union_r. apply elem_of_dom. eauto.
Qed.

(** A counter that is built has found the key of every offensive record. *)
Lemma counter_of_keys f (cs : list dict) cnt cnt' :
  counter_of f cs cnt = Ok cnt' →
  Forall (λ c, offensive c → ∃ k, f c = Ok k) cs.
Proof.
  revert cnt. induction cs as [|c cs IH]; intros cnt H; [constructor|].
  simpl in H. apply outcome_bind_Ok in H as (b & Hb & H). destruct b.
  - apply outcome_bind_Ok in H as (k & Hk & H).
    apply outcome_bind_Ok in H as (cnt1 & _ & H).
    constructor; [eauto|by eapply IH].
  - constructor; [|by eapply IH]. unfold offensive. congruence.
Qed.



(** ** The order of the events *)

Lemma appends_ret {A} (a : A) : appends (mret a).
Proof. intros t. exists []. by rewrite app_nil_r. Qed.

Lemma appends_lift {A} (o : outcome A) : appends (lift o).
Proof. intros t. exists []. by rewrite app_nil_r. Qed.

Lemma appends_print line : appends (print line).
Proof. intros t. by exists [Printed line]. Qed.

Lemma appends_write path content : appends (emit (Written path content)).
Proof. intros t. by exists [Written path content]. Qed.

Lemma appends_bind {A B} (m : M A) (f : A → M B) :
  appends m → (∀ a, appends (f a)) → appends (m ≫= f).
Proof.
  intros Hm Hf t. rewrite bind_run. destruct (Hm t) as (evs & Ht & Hevs).
  destruct (m t) as [[a|e|] t']; simpl in Ht; subst t'; [|by exists evs..].
  destruct (Hf a (t ++ evs)) as (evs' & -> & Hevs').
  exists (evs ++ evs'). by rewrite app_assoc, requests_app, Hevs, Hevs'.
Qed.

Create HintDb order.
#[local] Hint Resolve appends_ret appends_lift appends_print appends_write
  appends_bind : order.

Lemma appends_listing idx comments : appends (print_listing idx comments).
Proof.
  revert idx. induction comments as [|c cs IH]; intros idx; simpl;
    auto 20 with order.
Qed.

Lemma appends_breakdown types : appends (print_breakdown types).
Proof. induction types as [|[k n] types IH]; simpl; auto 10 with order. Qed.

Lemma appends_listings r out :
  appends (print_breakdown (offense_types r);;
           (match all_offensive r with
            | [] => mret ()
            | _ => print [FText nl; FText "All Offensive Comments:"];;
                   print_listing 1 (all_offensive r)
            end);;
           (match most_offensive r with
            | [] => mret ()
            | _ => print [FText nl; FText "Top 5 Most Severe Offensive Comments:"];;
                   print_listing 1 (most_offensive r)
            end);;
           print [FText nl; FText "Full analysis saved to "; FText out]).
Proof.
  repeat (apply appends_bind; [|intros ?]);
    try destruct (all_offensive r); try destruct (most_offensive r);
    auto 10 using appends_listing, appends_breakdown with order.
Qed.

Lemma appends_summary r out : appends (print_summary r out).
Proof.
  unfold print_summary.
  repeat (apply appends_bind; [|intros ?]);
    try destruct (all_offensive r); try destruct (most_offensive r);
    auto 10 using appends_listing, appends_breakdown with order.
Qed.

Lemma appends_charts o r records out :
  appends (create_visualizations o r records out).
Proof.
  unfold create_visualizations, plot_offense_distribution,
    plot_severity_distribution, write_html.
  destruct (create_plots o), (offense_types r); auto 20 with order.
Qed.

Lemma appends_export env v out : appends (export_to_json env v out).
Proof.
  intros t. rewrite export_to_json_run.
  destruct (can_create env (made_dirs t) out).
  - by exists [Written out (JsonText v)].
  - exists []. by rewrite app_nil_r.
Qed.

Lemma appends_finish env o r exported records out :
  appends (finish env o r exported records out).
Proof.
  unfold finish.
  auto 10 using appends_export, appends_charts, appends_summary with order.
Qed.

(** X17.  Classification comes before any output file: the events of a run
    fall in two parts, the first without a written file and the second
    without a request.  No request is sent once a file has been written. *)
Theorem requests_precede_writes (env : environment) (o : options) :
  ∃ t1 t2, (run env o).2 = t1 ++ t2 ∧ written t1 = [] ∧ requests t2 = [].
Proof.
  assert (∀ t, written t = [] → ∃ t1 t2, t = t1 ++ t2 ∧ written t1 = [] ∧
                                          requests t2 = []) as Hearly.
  { intros t Ht. exists t, []. by rewrite app_nil_r. }
  rewrite run_unfold.
  destruct (String.eqb _ ""); [by apply Hearly|].
  destruct (load_result env (input_file o)) as [comments| |]; [|by apply Hearly..].
  destruct (py_len comments) as [n| |]; [|by apply Hearly..].
  destruct (py_iter comments) as [items| |]; [|by apply Hearly..].
  pose proof (writes_nothing_annotate_all env items (prologue o n)) as Hquiet.
  change (written (prologue o n)) with (@nil (string * file_content)) in Hquiet.
  destruct (annotate_all env items (prologue o n)) as [[annotated| |] t1];
    cbn [snd] in *; [|by apply Hearly..].
  destruct (generate_report annotated) as [r| |]; [|by apply Hearly..].
  destruct (filter_offensive o);
    match goal with |- context [finish ?env ?o ?r ?v ?rs ?p ?t] =>
      destruct (appends_finish env o r v rs p t) as (evs & -> & Hevs)
    end; by exists t1, evs.
Qed.

(** ** The summary and the export *)

Lemma filter_offensive_value (cs : list dict) :
  filter offensive_value (JObj <$> cs) = JObj <$> filter offensive cs.
Proof.
  induction cs as [|c cs IH]; [done|]. rewrite fmap_cons.
  destruct (decide (offensive c)).
  - rewrite !filter_cons_True by done. by rewrite fmap_cons, IH.
  - by rewrite !filter_cons_False.
Qed.

(** X18.  In a run that completes, the summary counts all the comments of
    the input, also when the export is filtered, and the offensive
    comments it counts are the offensive records of the export. *)
Theorem summary_counts (env : environment) (o : options) (l : list json) :
  load_result env (input_file o) = Ok (JArr l) →
  (run env o).1 = Ok () →
  ∃ path v charts,
    written (run env o).2 = (path, JsonText v) :: charts ∧
    Printed [FText "Total comments analyzed: "; FNum (length l)]
      ∈ (run env o).2 ∧
    Printed [FText "Offensive comments found: ";
             FNum (length (filter offensive_value (records_of v)))]
      ∈ (run env o).2.
Proof.
  intros Hload. rewrite run_unfold, Hload. cbn [py_len py_iter].
  destruct (String.eqb _ ""); [done|].
  pose proof (writes_nothing_annotate_all env l (prologue o (length l))) as Hquiet.
  change (written (prologue o (length l))) with (@nil (string * file_content))
    in Hquiet.
  destruct (annotate_all env l (prologue o (length l)))
    as [[annotated| |] t1] eqn:Hann; cbn [snd] in *; [|done..].
  apply annotate_all_length in Hann.
  destruct (generate_report annotated) as [r| |] eqn:Hr; [|done..].
  destruct (generate_report_Ok _ _ Hr) as (_ & _ & _ & Htotal & Hoffs & _).
  assert (∀ (records : list dict) out,
    length (filter offensive_value (JObj <$> records))
      = length (filter offensive annotated) →
    (finish env o r (JArr (JObj <$> records)) records out t1).1 = Ok () →
    ∃ path v charts,
      written (finish env o r (JArr (JObj <$> records)) records out t1).2
        = (path, JsonText v) :: charts ∧
      Printed [FText "Total comments analyzed: "; FNum (length l)]
        ∈ (finish env o r (JArr (JObj <$> records)) records out t1).2 ∧
      Printed [FText "Offensive comments found: ";
               FNum (length (filter offensive_value (records_of v)))]
        ∈ (finish env o r (JArr (JObj <$> records)) records out t1).2) as Hfinish.
  { intros records out Hcount. unfold finish.
    rewrite bind_run, export_to_json_run.
    destruct (can_create env (made_dirs t1) out); [|done].
    cbn beta iota. rewrite bind_run.
    match goal with |- context [create_visualizations o r records out ?t] =>
      destruct (appends_charts o r records out t) as (evs & Ht2 & _);
      destruct (create_visualizations o r records out t) as [[[]| |] t2];
      [|done..]
    end.
    cbn [snd] in Ht2. subst t2. unfold print_summary. rewrite !bind_print.
    match goal with |- context [(?m ≫= ?f) ?t] =>
      destruct (appends_listings r out t) as (evs' & Ht3 & _)
    end.
    intros _. exists out, (JArr (JObj <$> records)), (written evs ++ written evs').
    rewrite Ht3, Htotal, Hoffs, <- Hann, <- Hcount.
    split_and!.
    - rewrite !written_app, Hquiet. simpl. by rewrite !app_nil_r.
    - rewrite !elem_of_app, !list_elem_of_singleton. tauto.
    - rewrite !elem_of_app, !list_elem_of_singleton. tauto. }
  destruct (filter_offensive o).
  - apply Hfinish. rewrite !filter_offensive_value, !length_fmap.
    by rewrite list_filter_filter_l.
  - apply Hfinish. by rewrite filter_offensive_value, length_fmap.
Qed.

Lemma summary_counts_witness :
  ∃ path v charts,
    written (run (sample_env two_comments_text service_toxic)
                 default_options).2 = (path, JsonText v) :: charts ∧
    Printed [FText "Total comments analyzed: ";
             FNum (length [JObj hello_comment; JObj rude_comment])]
      ∈ (run (sample_env two_comments_text service_toxic) default_options).2 ∧
    Printed [FText "Offensive comments found: ";
             FNum (length (filter offensive_value (records_of v)))]
      ∈ (run (sample_env two_comments_text service_toxic) default_options).2.
Proof.
  apply (summary_counts (sample_env two_comments_text service_toxic)
           default_options [JObj hello_comment; JObj rude_comment]).
  - vm_cast_no_check (eq_refl (Ok (JArr [JObj hello_comment; JObj rude_comment]))).
  - vm_cast_no_check (eq_refl (Ok () : outcome unit)).
Defined.

(** ** The path of the filtered export, in general *)

Lemma string_length_append (s1 s2 : string) :
  String.length (s1 ++ s2) = (String.length s1 + String.length s2)%nat.
Proof.
  induction s1 as [|a s1 IH]; [done|]. rewrite append_cons. simpl. by rewrite IH.
Qed.

Lemma prefix_length (s1 s2 : string) :
  String.prefix s1 s2 = true → (String.length s1 ≤ String.length s2)%nat.
Proof.
  revert s2. induction s1 as [|a s1 IH]; intros [|b s2]; simpl; try done; try lia.
  destruct (ascii_dec a b); [|done]. intros ?%IH. lia.
Qed.

(** A replacement by a longer text never shortens the string. *)
Lemma replace_from_length old new k s :
  (0 < String.length old ≤ String.length new)%nat →
  (k ≤ String.length s)%nat →
  (String.length s ≤ String.length (replace_from old new k s) + k)%nat.
Proof.
  intros Hlen. revert k. induction s as [|a s IH]; intros k Hk;
    [simpl in *; lia|].
  cbn [replace_from]. change (String.length (String a s)) with (S (String.length s)) in *.
  destruct k as [|k].
  - destruct (String.prefix old (String a s)) eqn:Hp.
    + apply prefix_length in Hp.
      change (String.length (String a s)) with (S (String.length s)) in Hp.
      rewrite string_length_append.
      specialize (IH (String.length old - 1)%nat). lia.
    + change (String.length (String a ?x)) with (S (String.length x)).
      specialize (IH 0%nat). lia.
  - specialize (IH k). lia.
Qed.

Lemma replace_from_longer old new s :
  (0 < String.length old < String.length new)%nat →
  occurs_in old s = true →
  (String.length s < String.length (replace_from old new 0 s))%nat.
Proof.
  intros Hlen. induction s as [|a s IH]; [done|]. cbn [occurs_in replace_from].
  destruct (String.prefix old (String a s)) eqn:Hp.
  - intros _. apply prefix_length in Hp.
    change (String.length (String a s)) with (S (String.length s)) in *.
    rewrite string_length_append.
    pose proof (replace_from_length old new (String.length old - 1) s).
    lia.
  - change (String.length (String a ?x)) with (S (String.length x)).
    simpl. intros ?%IH. lia.
Qed.

Lemma replace_from_absent old new s :
  occurs_in old s = false → replace_from old new 0 s = s.
Proof.
  induction s as [|a s IH]; [done|]. cbn [occurs_in replace_from].
  destruct (String.prefix old (String a s)); [done|]. simpl.
  intros ?%IH. congruence.
Qed.

(** X19.  [--filter-offensive] gives the export a path of its own exactly
    when [.json] occurs in the output path; otherwise the filtered export
    goes to the path of the unfiltered one.  The path never gets
    shorter. *)
Theorem offensive_path_changes (output_file : string) :
  (offensive_path output_file = output_file ↔
   occurs_in ".json" output_file = false) ∧
  (String.length output_file ≤ String.length (offensive_path output_file))%nat.
Proof.
  unfold offensive_path, str_replace. split.
  - split; [|apply replace_from_absent].
    intros Heq. destruct (occurs_in ".json" output_file) eqn:Hocc; [|done].
    apply (replace_from_longer ".json" "_offensive.json") in Hocc; [|simpl; lia].
    rewrite Heq in Hocc. lia.
  - pose proof (replace_from_length ".json" "_offensive.json" 0 output_file).
    simpl in *. lia.
Qed.

(** ** The export as an input *)

Lemma characters_nil s : characters s = [] → s = ""%string.
Proof.
  destruct s as [|a s]; [done|]. simpl.
  destruct (characters s) as [|[|b ch] rest]; [done..|].
  by destruct (is_continuation b).
Qed.

(** A value the loop has nothing to go through in, other than an array. *)
Lemma annotate_all_of_empty env comments items t annotated t' :
  py_iter comments = Ok items →
  annotate_all env items t = (Ok annotated, t') →
  (∃ l, comments = JArr l) ∨ comments = JStr "" ∨ comments = JObj ∅.
Proof.
  intros Hiter Hann.
  destruct comments as [| | | |s|l|m]; simpl in Hiter; simplify_eq; eauto; right.
  - left. destruct (characters s) as [|ch rest] eqn:Hs.
    + by apply characters_nil in Hs as ->.
    + rewrite fmap_cons in Hann. cbn [annotate_all] in Hann.
      by rewrite bind_run in Hann.
  - right. destruct (map_to_list m) as [|[k x] rest] eqn:Hm.
    + by apply map_to_list_empty_iff in Hm as ->.
    + simpl in Hann. by rewrite bind_run in Hann.
Qed.

(** X20.  The export is not an input: [load_comments] wants an object with
    the key [comments], and what a run exports is a list (or, when the
    [comments] of its input were an empty string or an empty object, that
    value).  Reading an export back ends in a [TypeError] or in the
    [KeyError] for [comments]. *)
Theorem export_is_no_input (env : environment) (o : options) (path : string)
    (v : json) (charts : list (string * file_content))
    (env' : environment) (file_path text : string) :
  written (run env o).2 = (path, JsonText v) :: charts →
  open_read env' file_path = Ok text →
  json_loads env' text = Ok v →
  load_result env' file_path = Raise TypeError ∨
  load_result env' file_path = Raise (KeyError "comments").
Proof.
  destruct (run env o) as [res t] eqn:Hrun. cbn [snd]. intros Hwritten Hopen Hv.
  destruct (run_written _ _ _ _ Hrun) as [[Hnone _]|
    (comments & items & annotated & t0 & t1 & r & charts' & pie &
     _ & Hiter & _ & Hann & _ & Hw & _)]; [congruence|].
  cbv zeta in Hw. rewrite Hwritten in Hw. injection Hw as _ -> _.
  unfold load_result, load_comments. rewrite !bind_run. unfold lift.
  rewrite Hopen, !bind_run, Hv.
  destruct (filter_offensive o); [by left|].
  destruct (annotate_all_of_empty _ _ _ _ _ _ Hiter Hann)
    as [[l ->]|[-> | ->]]; [by left|by left|by right].
Qed.

Lemma export_is_no_input_witness :
  load_result (reading_back sample_export.1.2) "output/analyzed_comments.json"
    = Raise TypeError ∨
  load_result (reading_back sample_export.1.2) "output/analyzed_comments.json"
    = Raise (KeyError "comments").
Proof.
  exact (export_is_no_input
           (sample_env two_comments_text service_toxic) default_options
           sample_export.1.1 sample_export.1.2 sample_export.2
           (reading_back sample_export.1.2) "output/analyzed_comments.json"
           "export" sample_export_written eq_refl eq_refl).
Defined.

(** ** The bar chart of a run *)

(** X21.  The first chart a run writes is the bar chart of the offense
    types, at the path named after the export: one bar per offense type,
    no type twice, every bar at least 1 high, and the heights add up to the
    number of offensive records in the export. *)
Theorem offense_chart_counts (env : environment) (o : options) (path : string)
    (v : json) (chart : string * file_content)
    (charts : list (string * file_content)) :
  written (run env o).2 = (path, JsonText v) :: chart :: charts →
  ∃ types : list (json * nat),
    chart = (chart_path path "_offense_distribution." (plot_fmt o),
             HtmlPage (Bar types.*1 types.*2)) ∧
    StronglySorted different_keys types ∧
    Forall (λ e : json * nat, (1 ≤ e.2)%nat) types ∧
    sum_list types.*2 = length (filter offensive_value (records_of v)).
Proof.
  destruct (run env o) as [res t] eqn:Hrun. cbn [snd]. intros Hwritten.
  destruct (run_written _ _ _ _ Hrun) as [[Hnone _]|
    (comments & items & annotated & t0 & t1 & r & charts' & pie &
     _ & Hiter & _ & Hann & Hr & Hw & Hpre & _)]; [congruence|].
  cbv zeta in Hw. rewrite Hwritten in Hw. injection Hw as Hpath Hv <-.
  destruct Hpre as [rest Hrest]. injection Hrest as <- _.
  exists (offense_types r). rewrite Hpath. split; [done|].
  destruct (generate_report_Ok _ _ Hr) as (ranked & _ & Htypes & _).
  destruct (counter_of_correct _ _ _ _ Htypes) as (Hd & Hp & Hsum & _).
  split_and!; [apply Hd; constructor|apply Hp; constructor|].
  rewrite Hsum. simpl. subst v. destruct (filter_offensive o).
  - simpl. rewrite filter_offensive_value, length_fmap.
    by rewrite list_filter_filter_l.
  - destruct (annotate_all_of_non_array _ _ _ _ _ _ Hiter Hann)
      as [->|[l ->]].
    + by destruct comments.
    + simpl. by rewrite filter_offensive_value, length_fmap.
Qed.

Lemma sample_export_charts :
  written (run (sample_env two_comments_text service_toxic) default_options).2
  = (sample_export.1.1, JsonText sample_export.1.2)
      :: sample_offense_chart :: drop 1 sample_export.2.
Proof.
  vm_cast_no_check
    (eq_refl ((sample_export.1.1, JsonText sample_export.1.2)
                :: sample_offense_chart :: drop 1 sample_export.2)).
Qed.

Lemma offense_chart_counts_witness :
  ∃ types : list (json * nat),
    sample_offense_chart
    = (chart_path sample_export.1.1 "_offense_distribution."
         (plot_fmt default_options),
       HtmlPage (Bar types.*1 types.*2)) ∧
    StronglySorted different_keys types ∧
    Forall (λ e : json * nat, (1 ≤ e.2)%nat) types ∧
    sum_list types.*2
    = length (filter offensive_value (records_of sample_export.1.2)).
Proof.
  exact (offense_chart_counts
           (sample_env two_comments_text service_toxic) default_options
           sample_export.1.1 sample_export.1.2 sample_offense_chart
           (drop 1 sample_export.2) sample_export_charts).
Defined.
